(** * stan::io::program_reader

    A shallow embedding of [src/stan/io/program_reader.hpp]: the reader that
    unpacks [#include] lines of a Stan program against a search path, and
    the queries that map a line of the concatenated program back to the
    files it came from.

    Conventions of the embedding.
    - [std::string] is [string]; [std::vector] is [list], [push_back]
      appends at the tail and [pop_back] is [removelast].
    - [int] is [Z].  Signed overflow is undefined in C++, so the model
      covers the runs in which no [int] operation overflows and writes no
      wrap-around.
    - [std::istream] is the text that is still unread.
    - The files that [std::ifstream] can open are a function from a path to
      the content of the file, [None] when the stream is not [good()].  A
      file that is there opens at every depth of nesting: the limit of the
      host on streams open at a time is not part of the model, so a run
      that nests deeper than that limit lies outside it.
    - [read] recurses on included files and has no cycle detection, so the
      model takes fuel: every call of [read] and every turn of its loop
      spends one unit.  Running dry is the outcome [OutOfFuel], distinct
      from returning and from throwing. *)

From Stdlib Require Import ZArith List String Ascii Bool Lia Arith.
From Stdlib Require Import DecimalString.
Import ListNotations.

Local Open Scope string_scope.
Local Open Scope list_scope.
Local Open Scope Z_scope.

(** ** Data *)

(** [struct preproc_event], lines 25-34. *)
Record preproc_event : Type := Build_preproc_event {
  concat_line_num_ : Z;
  line_num_ : Z;
  action_ : string;
  path_ : string
}.

(** [dump_t] and [dumps_t], lines 47 and 52. *)
Definition dump_t : Type := (string * Z)%type.
Definition dumps_t : Type := list dump_t.

(** The private members of [class program_reader], lines 164-165. *)
Record program_reader : Type := Build_program_reader {
  program_ : string;
  history_ : list preproc_event
}.

(** What a call does: it returns, it throws [std::runtime_error], or the
    model has no fuel left. *)
Inductive outcome (A : Type) : Type :=
| Returns (a : A)
| Throws (what : string)
| OutOfFuel.
Arguments Returns {A} a.
Arguments Throws {A} what.
Arguments OutOfFuel {A}.

(** ** Strings *)

Definition newline : ascii := "010"%char.
Definition space : ascii := " "%char.
Definition endl : string := String newline EmptyString.

(** [s[i]] for an [int] index: the character at [i], and the terminating
    NUL at [i = s.size()].  Other indices are outside the string; the model
    reads NUL there. *)
Definition char_at (s : string) (i : Z) : ascii :=
  if i <? 0 then zero
  else match String.get (Z.to_nat i) s with
       | Some c => c
       | None => zero
       end.

(** [s.substr(pos, n)] where [n] is an [int]: a negative [n] converts to a
    [size_t] beyond any length, so the rest of the string is taken.  The
    source calls it with [pos] inside the string (lemma
    [include_path_loops_exit]), where [substr] does not throw. *)
Definition substr (s : string) (pos n : Z) : string :=
  substring (Z.to_nat pos)
            (if n <? 0 then String.length s else Z.to_nat n) s.

(** [s.c_str()]: the characters before the first NUL. *)
Fixpoint c_str (s : string) : string :=
  match s with
  | EmptyString => EmptyString
  | String c s' => if Ascii.eqb c zero then EmptyString else String c (c_str s')
  end.

(** [operator<<] on an [int]: decimal digits, a minus sign when negative. *)
Definition string_of_int (z : Z) : string :=
  NilZero.string_of_int (Z.to_int z).

(** Modelled from the spec: [read_line], declared in [stan/io/read_line.hpp],
    which is not among the sources.  The spec has the document read line by
    line with an empty result at the end of the input, and the lines written
    to the output as they are read: the line returned carries its newline
    (the example of the specification has the five lines of the output
    apart, and [read] writes nothing between two lines).  The result is the
    line and the text left in the stream. *)
Fixpoint read_line (in_ : string) : string * string :=
  match in_ with
  | EmptyString => (EmptyString, EmptyString)
  | String c rest =>
      if Ascii.eqb c newline then (String c EmptyString, rest)
      else let (line, rest') := read_line rest in (String c line, rest')
  end.

(** Modelled from the spec: [starts_with], declared in
    [stan/io/starts_with.hpp], which is not among the sources:
    [starts_with(p, s)] holds when [s] begins with [p]. *)
Definition starts_with (p s : string) : bool := String.prefix p s.

(** [line.empty()]. *)
Definition empty (s : string) : bool :=
  match s with EmptyString => true | _ => false end.

(** ** [include_path], lines 176-182 *)

(** [while (line[start] == ' ') ++start;]  The loop leaves at the NUL
    behind the last character at the latest, so [String.length line] turns
    are enough. *)
Fixpoint skip_forward (turns : nat) (line : string) (start : Z) : Z :=
  match turns with
  | O => start
  | S turns' =>
      if Ascii.eqb (char_at line start) space
      then skip_forward turns' line (start + 1)
      else start
  end.

(** [while (line[end] == ' ') --end;] *)
Fixpoint skip_backward (turns : nat) (line : string) (end_ : Z) : Z :=
  match turns with
  | O => end_
  | S turns' =>
      if Ascii.eqb (char_at line end_) space
      then skip_backward turns' line (end_ - 1)
      else end_
  end.

Definition include_path (line : string) : string :=
  let start := Z.of_nat (String.length "#include") in
  let start := skip_forward (String.length line) line start in
  let end_ := Z.of_nat (String.length line) - 1 in
  let end_ := skip_backward (String.length line) line end_ in
  substr line start (end_ - start).

(** ** [read], lines 199-241 *)

Definition push_event (r : program_reader) (e : preproc_event) : program_reader :=
  Build_program_reader (program_ r) (history_ r ++ [e]).

Definition write_line (r : program_reader) (line : string) : program_reader :=
  Build_program_reader (program_ r ++ line)%string (history_ r).

Section Files.

(** [std::ifstream include_in(f)]: the content of the file when the
    stream is [good()]. *)
Variable ifstream : string -> option string.

(** The [for] loop over [search_path], lines 215-233, up to the point
    where a stream is good: the nested [read], the restart event and the
    [break] happen for that directory only. *)
Fixpoint open_include (search_path : list string) (incl_path : string)
  : option string :=
  match search_path with
  | [] => None
  | dir :: search_path' =>
      match ifstream (c_str (dir ++ incl_path)%string) with
      | Some include_in => Some include_in
      | None => open_include search_path' incl_path
      end
  end.

(** [read] pushes the start event and enters the loop; [read_loop] is the
    loop of lines 203-240 at the turn [line_num].  The reader and
    [concat_line_num], which the source passes by reference, are threaded
    through as a pair. *)
Fixpoint read (fuel : nat) (in_ path : string) (search_path : list string)
         (st : program_reader * Z) {struct fuel}
  : outcome (program_reader * Z) :=
  match fuel with
  | O => OutOfFuel
  | S fuel' =>
      let (r, concat_line_num) := st in
      read_loop fuel' in_ path search_path 1
        (push_event r (Build_preproc_event concat_line_num 0 "start" path),
         concat_line_num)
  end
with read_loop (fuel : nat) (in_ path : string) (search_path : list string)
         (line_num : Z) (st : program_reader * Z) {struct fuel}
  : outcome (program_reader * Z) :=
  match fuel with
  | O => OutOfFuel
  | S fuel' =>
      let (r, concat_line_num) := st in
      let (line, in') := read_line in_ in
      if empty line then
        Returns (push_event r (Build_preproc_event concat_line_num
                                 (line_num - 1) "end" path),
                 concat_line_num)
      else if starts_with "#include " line then
        let incl_path := include_path line in
        let r := push_event r (Build_preproc_event concat_line_num
                                 (line_num - 1) "include" incl_path) in
        match open_include search_path incl_path with
        | None => Throws "could not find include file"
        | Some include_in =>
            match read fuel' include_in incl_path search_path
                       (r, concat_line_num) with
            | Returns (r, concat_line_num) =>
                read_loop fuel' in' path search_path (line_num + 1)
                  (push_event r (Build_preproc_event concat_line_num
                                   line_num "restart" path),
                   concat_line_num)
            | Throws what => Throws what
            | OutOfFuel => OutOfFuel
            end
        end
      else
        read_loop fuel' in' path search_path (line_num + 1)
          (write_line r line, concat_line_num + 1)
  end.

(** The constructor, lines 67-71.  When [read] throws, so does the
    constructor, and there is no reader. *)
Definition new_program_reader (fuel : nat) (in_ name : string)
           (search_path : list string) : outcome program_reader :=
  match read fuel in_ name search_path
             (Build_program_reader "" [], 0) with
  | Returns (r, _) => Returns r
  | Throws what => Throws what
  | OutOfFuel => OutOfFuel
  end.

End Files.

(** ** [include_stack], lines 127-150 *)

(** The loop over [history_] from the event at hand on, with the locals
    [result], [file], [file_start] and [concat_start]. *)
Fixpoint include_stack_from (history : list preproc_event) (target : Z)
         (result : dumps_t) (file : string) (file_start concat_start : Z)
  : dumps_t :=
  match history with
  | [] => []
  | e :: history' =>
      if target <=? concat_line_num_ e then
        let line := file_start + target - concat_start in
        result ++ [(file, line)]
      else if (action_ e =? "start")%string || (action_ e =? "restart")%string then
        include_stack_from history' target result
          (path_ e) (line_num_ e) (concat_line_num_ e)
      else if (action_ e =? "end")%string then
        if (List.length result =? 0)%nat then []
        else include_stack_from history' target (removelast result)
               file file_start concat_start
      else if (action_ e =? "include")%string then
        include_stack_from history' target
          (result ++ [(file, line_num_ e + 1)]) file file_start concat_start
      else
        include_stack_from history' target result file file_start concat_start
  end.

Definition include_stack (r : program_reader) (target : Z) : dumps_t :=
  include_stack_from (history_ r) target [] "ERROR: UNINITIALIZED" (-1) (-1).

(** ** [include_trace], lines 99-118 *)

Definition dump_at (x : dumps_t) (i : nat) : dump_t :=
  nth i x (EmptyString, 0).

(** The loop [for (size_t i = x.size() - 1; i-- > 0; )] with [i] turns
    left. *)
Fixpoint included_from (x : dumps_t) (i : nat) : string :=
  match i with
  | O => ""
  | S i' =>
      ("included from file '" ++ fst (dump_at x i')
         ++ "' at line " ++ string_of_int (snd (dump_at x i'))
         ++ endl ++ included_from x i')%string
  end.

(** Lines 108-117: the text written for a stack [x]. *)
Definition format_trace (x : dumps_t) : string :=
  let last := dump_at x (List.length x - 1) in
  ("in file '" ++ fst last ++ "' at line " ++ string_of_int (snd last)
     ++ endl ++ included_from x (List.length x - 1))%string.

Definition not_found (target_line_num : Z) : string :=
  ("Target line number " ++ string_of_int target_line_num ++ " not found."
     ++ endl)%string.

Definition include_trace (r : program_reader) (target_line_num : Z)
  : outcome string :=
  let x := include_stack r target_line_num in
  if (List.length x <? 1)%nat || (target_line_num <? 1) then
    Throws (not_found target_line_num)
  else Returns (format_trace x).

(** ** Vocabulary of the specification *)

(** The resolver of the specification: the stack of [include_stack] under
    the test of [include_trace], line 101.  [None] is TargetNotFound. *)
Definition resolve (r : program_reader) (target : Z) : option dumps_t :=
  let x := include_stack r target in
  if (List.length x <? 1)%nat || (target <? 1) then None else Some x.

(** The lines of a text, as successive calls of [read_line] deliver them
    (lemma [lines_of_read_line]): a character that is no newline joins the
    first line of what follows. *)
Fixpoint lines_of (s : string) : list string :=
  match s with
  | EmptyString => []
  | String c rest =>
      if Ascii.eqb c newline then String c EmptyString :: lines_of rest
      else match lines_of rest with
           | [] => [String c EmptyString]
           | line :: lines => String c line :: lines
           end
  end.

(** A text given by the content of its lines, each closed by a newline. *)
Fixpoint document (lines : list string) : string :=
  match lines with
  | [] => EmptyString
  | line :: lines' => (line ++ endl ++ document lines')%string
  end.

(** A line that [read] writes to the program. *)
Definition plain (line : string) : bool := negb (starts_with "#include " line).

(** An event covers a target when the target is not behind its position in
    the concatenated program. *)
Definition covers (e : preproc_event) (target : Z) : Prop :=
  target <= concat_line_num_ e.

(** The file of the example in the specification. *)
Definition example_main : string :=
  document ["model {"; "#include helper.stanfunc"; "}"]%string.

Definition example_helper : string :=
  document ["real f(real x) {"; "return x;"; "}"]%string.

Definition example_files (f : string) : option string :=
  if (f =? "inc/helper.stanfunc")%string then Some example_helper else None.

(** A text that is empty or whose last character is a newline. *)
Fixpoint closed (s : string) : bool :=
  match s with
  | EmptyString => true
  | String c EmptyString => Ascii.eqb c newline
  | String _ s' => closed s'
  end.

(** [n] spaces. *)
Fixpoint spaces (n : nat) : string :=
  match n with
  | O => EmptyString
  | S n' => String space (spaces n')
  end.

(** The last character of a string, NUL when there is none. *)
Fixpoint last_char (s : string) : ascii :=
  match s with
  | EmptyString => zero
  | String c EmptyString => c
  | String _ s' => last_char s'
  end.

(** The include syntax in the words of the specification: the first
    characters behind the indentation are the token.  It is compared with
    the test of line 210. *)
Definition blank (c : ascii) : bool :=
  Ascii.eqb c space || Ascii.eqb c "009"%char.

Fixpoint strip_indentation (s : string) : string :=
  match s with
  | EmptyString => EmptyString
  | String c s' => if blank c then strip_indentation s' else s
  end.

Definition directive_of_spec (line : string) : bool :=
  String.prefix "#include" (strip_indentation line).

(** The line that the specification gives to an entry of a chain behind the
    innermost one. *)
Definition included_line (entry : dump_t) : string :=
  ("included from file '" ++ fst entry ++ "' at line "
     ++ string_of_int (snd entry) ++ endl)%string.

Definition in_line (entry : dump_t) : string :=
  ("in file '" ++ fst entry ++ "' at line "
     ++ string_of_int (snd entry) ++ endl)%string.

(** ** Runs of the loop as a relation

    [loop_returns in_ path line_num c events text c'] describes a run of the
    loop of [read] that returns: started on [in_] at turn [line_num] with
    the counter at [c], it pushes [events], writes [text] and leaves the
    counter at [c'].  Lemmas [read_loop_returns] and [loop_returns_read]
    tie it to [read_loop]. *)
Section Runs.

Variable ifstream : string -> option string.
Variable search_path : list string.

Inductive loop_returns
  : string -> string -> Z -> Z -> list preproc_event -> string -> Z -> Prop :=
| loop_end path line_num c :
    loop_returns EmptyString path line_num c
      [Build_preproc_event c (line_num - 1) "end" path] EmptyString c
| loop_plain in_ line in' path line_num c events text c' :
    read_line in_ = (line, in') -> empty line = false -> plain line = true ->
    loop_returns in' path (line_num + 1) (c + 1) events text c' ->
    loop_returns in_ path line_num c events (line ++ text)%string c'
| loop_include in_ line in' include_in path line_num c
               events1 text1 c1 events2 text2 c2 :
    read_line in_ = (line, in') -> empty line = false -> plain line = false ->
    open_include ifstream search_path (include_path line) = Some include_in ->
    loop_returns include_in (include_path line) 1 c events1 text1 c1 ->
    loop_returns in' path (line_num + 1) c1 events2 text2 c2 ->
    loop_returns in_ path line_num c
      (Build_preproc_event c (line_num - 1) "include" (include_path line)
         :: Build_preproc_event c 0 "start" (include_path line)
         :: events1
         ++ Build_preproc_event c1 line_num "restart" path :: events2)
      (text1 ++ text2)%string c2.

(** [loop_throws in_]: the loop started on [in_] comes, in the order of
    reading, to an include line whose path opens in no directory of the
    search path: on the line at hand, behind a plain line, inside the file
    that the line at hand includes, or behind an include that returned. *)
Inductive loop_throws : string -> Prop :=
| throws_here in_ line in' :
    read_line in_ = (line, in') -> empty line = false -> plain line = false ->
    (forall dir, In dir search_path ->
                 ifstream (c_str (dir ++ include_path line)%string) = None) ->
    loop_throws in_
| throws_behind_plain in_ line in' :
    read_line in_ = (line, in') -> empty line = false -> plain line = true ->
    loop_throws in' ->
    loop_throws in_
| throws_inside in_ line in' include_in :
    read_line in_ = (line, in') -> empty line = false -> plain line = false ->
    open_include ifstream search_path (include_path line) = Some include_in ->
    loop_throws include_in ->
    loop_throws in_
| throws_behind_include in_ line in' include_in c events text c' :
    read_line in_ = (line, in') -> empty line = false -> plain line = false ->
    open_include ifstream search_path (include_path line) = Some include_in ->
    loop_returns include_in (include_path line) 1 c events text c' ->
    loop_throws in' ->
    loop_throws in_.

End Runs.

(** What the scan of [include_stack] does on a stretch [events] of the
    history that a returning loop pushed, whatever follows it in the history
    and whatever stack and window it starts from: it finds the target in the
    stretch, or the target lies behind [c'] and the scan has dropped the
    last entry of the stack, stopping when there was none. *)
Definition scan_pops (events : list preproc_event) (c' : Z) : Prop :=
  forall target result file file_start concat_start rest,
    include_stack_from (events ++ rest) target result file file_start
      concat_start <> []
    \/ (c' < target
        /\ ((result = []
             /\ include_stack_from (events ++ rest) target result file
                  file_start concat_start = [])
            \/ (result <> []
                /\ exists file' file_start' concat_start',
                  include_stack_from (events ++ rest) target result file
                    file_start concat_start =
                  include_stack_from rest target (removelast result) file'
                    file_start' concat_start'))).

(** Positions in the concatenated program do not go down along the log. *)
Definition ascending (events : list preproc_event) : Prop :=
  forall i j ei ej,
    (i <= j)%nat -> nth_error events i = Some ei -> nth_error events j = Some ej ->
    concat_line_num_ ei <= concat_line_num_ ej.

(** The lines of a list, one behind the other. *)
Definition text_of (lines : list string) : string :=
  fold_right String.append EmptyString lines.

(** A file whose last line has no newline, and the document including it. *)
Definition unterminated_files (f : string) : option string :=
  if (f =? "inc/b")%string then Some "x"%string else None.

Definition unterminated_main : string :=
  document ["a"; "#include b"; "c"; "d"]%string.

(** Lines of which every one but the last is closed by a newline. *)
Fixpoint terminated (lines : list string) : bool :=
  match lines with
  | [] => true
  | line :: lines' =>
      match lines' with
      | [] => true
      | _ :: _ => closed line && terminated lines'
      end
  end.

(** An include line behind two blanks. *)
Definition indented_line : string :=
  ("  #include helper.stanfunc" ++ endl)%string.

(** ** Where the lines of the program come from

    [loop_lines in_ path line_num lines] lists what a run of the loop of
    [read] writes, started on [in_] at turn [line_num] of the file [path]:
    every line with the places it comes from, the file at hand with its
    line last and, in front of it, every enclosing file with the line of
    its include. *)
Definition under (entry : dump_t) (written : string * dumps_t)
  : string * dumps_t :=
  (fst written, entry :: snd written).

Section Provenance.

Variable ifstream : string -> option string.
Variable search_path : list string.

Inductive loop_lines : string -> string -> Z -> list (string * dumps_t) -> Prop :=
| lines_end path line_num :
    loop_lines EmptyString path line_num []
| lines_plain in_ line in' path line_num lines :
    read_line in_ = (line, in') -> empty line = false -> plain line = true ->
    loop_lines in' path (line_num + 1) lines ->
    loop_lines in_ path line_num ((line, [(path, line_num)]) :: lines)
| lines_include in_ line in' include_in path line_num inner lines :
    read_line in_ = (line, in') -> empty line = false -> plain line = false ->
    open_include ifstream search_path (include_path line) = Some include_in ->
    loop_lines include_in (include_path line) 1 inner ->
    loop_lines in' path (line_num + 1) lines ->
    loop_lines in_ path line_num (map (under (path, line_num)) inner ++ lines).

End Provenance.

(** The number of events of a log with the action [a]. *)
Definition count_action (a : string) (history : list preproc_event) : nat :=
  List.length (filter (fun e => (action_ e =? a)%string) history).



(** A document whose include opens nowhere. *)
Definition missing_include : string :=
  document ["model {"; "#include nowhere.stan"]%string.

(** A run that did not stop for want of fuel. *)
Definition finished {A : Type} (o : outcome A) : Prop := o <> OutOfFuel.

(** ** Lines *)

Lemma append_empty_right (s : string) : (s ++ "")%string = s.
Proof. induction s as [|c s IH]; simpl; [reflexivity | now rewrite IH]. Qed.

Lemma append_assoc (a b c : string) :
  ((a ++ b) ++ c)%string = (a ++ (b ++ c))%string.
Proof. induction a as [|x a IH]; simpl; [reflexivity | now rewrite IH]. Qed.

Lemma read_line_app (s line rest : string) :
  read_line s = (line, rest) -> s = (line ++ rest)%string.
Proof.
  revert line rest; induction s as [|c s IH]; simpl; intros line rest H.
  - now inversion H.
  - destruct (Ascii.eqb c newline).
    + now inversion H.
    + destruct (read_line s) as [l r] eqn:E. inversion H; subst; simpl.
      f_equal. now apply IH.
Qed.

Lemma read_line_empty (s rest : string) :
  read_line s = (EmptyString, rest) -> s = EmptyString /\ rest = EmptyString.
Proof.
  destruct s as [|c s]; simpl; intros H.
  - now inversion H.
  - destruct (Ascii.eqb c newline); [discriminate|].
    destruct (read_line s); discriminate.
Qed.

Lemma lines_of_read_line (s : string) :
  lines_of s =
  let (line, rest) := read_line s in
  if empty line then [] else line :: lines_of rest.
Proof.
  induction s as [|c s IH]; simpl; [reflexivity|].
  destruct (Ascii.eqb c newline); [reflexivity|].
  rewrite IH. destruct (read_line s) as [l r] eqn:E. simpl.
  destruct l as [|d l]; simpl; [|reflexivity].
  apply read_line_empty in E. now destruct E as [_ ->].
Qed.

Lemma lines_of_cons (s line : string) (lines : list string) :
  lines_of s = line :: lines ->
  exists rest, read_line s = (line, rest) /\ empty line = false
               /\ lines_of rest = lines /\ s = (line ++ rest)%string.
Proof.
  rewrite lines_of_read_line. destruct (read_line s) as [l r] eqn:E.
  destruct (empty l) eqn:El; [discriminate|]. intros H; inversion H; subst.
  exists r. repeat split; auto. now apply read_line_app.
Qed.

Lemma lines_of_nil (s : string) : lines_of s = [] -> s = EmptyString.
Proof.
  rewrite lines_of_read_line. destruct (read_line s) as [l r] eqn:E.
  destruct l; simpl; [|discriminate]. intros _.
  now apply read_line_empty in E.
Qed.

(** ** One turn of [read] *)

Section Turns.

Variable ifstream : string -> option string.

Lemma read_S fuel in_ path search_path r c :
  read ifstream (S fuel) in_ path search_path (r, c) =
  read_loop ifstream fuel in_ path search_path 1
    (push_event r (Build_preproc_event c 0 "start" path), c).
Proof. reflexivity. Qed.

Lemma read_loop_end fuel path search_path line_num r c :
  read_loop ifstream (S fuel) EmptyString path search_path line_num (r, c) =
  Returns (push_event r (Build_preproc_event c (line_num - 1) "end" path), c).
Proof. reflexivity. Qed.

Lemma read_loop_plain fuel in_ line in' path search_path line_num r c :
  read_line in_ = (line, in') -> empty line = false -> plain line = true ->
  read_loop ifstream (S fuel) in_ path search_path line_num (r, c) =
  read_loop ifstream fuel in' path search_path (line_num + 1)
    (write_line r line, c + 1).
Proof.
  intros E El Hp. apply negb_true_iff in Hp. simpl.
  now rewrite E, El, Hp.
Qed.

Lemma read_loop_include fuel in_ line in' path search_path line_num r c :
  read_line in_ = (line, in') -> empty line = false -> plain line = false ->
  read_loop ifstream (S fuel) in_ path search_path line_num (r, c) =
  match open_include ifstream search_path (include_path line) with
  | None => Throws "could not find include file"
  | Some include_in =>
      match read ifstream fuel include_in (include_path line) search_path
              (push_event r (Build_preproc_event c (line_num - 1) "include"
                               (include_path line)), c) with
      | Returns (r', c') =>
          read_loop ifstream fuel in' path search_path (line_num + 1)
            (push_event r' (Build_preproc_event c' line_num "restart" path),
             c')
      | Throws what => Throws what
      | OutOfFuel => OutOfFuel
      end
  end.
Proof.
  intros E El Hp. apply negb_false_iff in Hp. simpl.
  now rewrite E, El, Hp.
Qed.

Lemma same_event a a' b b' action path :
  a = a' -> b = b' ->
  Build_preproc_event a b action path = Build_preproc_event a' b' action path.
Proof. now intros -> ->. Qed.

Lemma same_return (p p' : string) (h h' : list preproc_event) (c c' : Z) :
  p = p' -> h = h' -> c = c' ->
  Returns (Build_program_reader p h, c) =
  Returns (Build_program_reader p' h', c').
Proof. now intros -> -> ->. Qed.

(** The loop over a text without include lines writes the text and closes
    with the end event. *)
Lemma read_loop_plain_text (lines : list string) :
  forall fuel in_ path search_path line_num r c,
    lines_of in_ = lines -> forallb plain lines = true ->
    (List.length lines < fuel)%nat ->
    read_loop ifstream fuel in_ path search_path line_num (r, c) =
    Returns
      (Build_program_reader (program_ r ++ in_)%string
         (history_ r ++
            [Build_preproc_event (c + Z.of_nat (List.length lines))
               (line_num - 1 + Z.of_nat (List.length lines)) "end" path]),
       c + Z.of_nat (List.length lines)).
Proof.
  induction lines as [|line lines IH];
    intros fuel in_ path search_path line_num r c Hl Hp Hf.
  - apply lines_of_nil in Hl; subst in_.
    destruct fuel as [|fuel]; [simpl in Hf; lia|].
    rewrite read_loop_end. unfold push_event. simpl List.length.
    apply same_return; [now rewrite append_empty_right| |lia].
    do 2 f_equal. apply same_event; lia.
  - apply lines_of_cons in Hl. destruct Hl as (rest & E & El & Hr & ->).
    simpl in Hp. apply andb_true_iff in Hp. destruct Hp as [Hp Hps].
    destruct fuel as [|fuel]; [simpl in Hf; lia|].
    rewrite (read_loop_plain _ _ _ _ _ _ _ _ _ E El Hp).
    rewrite (IH fuel rest path search_path (line_num + 1)
               (write_line r line) (c + 1) Hr Hps) by (simpl in Hf; lia).
    simpl program_. simpl history_.
    apply same_return; [now rewrite append_assoc| |simpl List.length; lia].
    do 2 f_equal. apply same_event; simpl List.length; lia.
Qed.

End Turns.

(** ** Fuel *)

Section Fuel.

Variable ifstream : string -> option string.

(** More fuel does not change a finished run. *)
Lemma fuel_monotone (fuel : nat) :
  (forall in_ path search_path st,
      finished (read ifstream fuel in_ path search_path st) ->
      forall fuel', (fuel <= fuel')%nat ->
        read ifstream fuel' in_ path search_path st =
        read ifstream fuel in_ path search_path st)
  /\
  (forall in_ path search_path line_num st,
      finished (read_loop ifstream fuel in_ path search_path line_num st) ->
      forall fuel', (fuel <= fuel')%nat ->
        read_loop ifstream fuel' in_ path search_path line_num st =
        read_loop ifstream fuel in_ path search_path line_num st).
Proof.
  induction fuel as [|fuel [IHread IHloop]]; split;
    try (intros; exfalso; match goal with H : finished _ |- _ => now apply H end).
  - intros in_ path search_path [r c] Hfin [|fuel'] Hle; [lia|].
    rewrite !read_S in *. apply IHloop; [exact Hfin | lia].
  - intros in_ path search_path line_num [r c] Hfin [|fuel'] Hle; [lia|].
    assert (Hle' : (fuel <= fuel')%nat) by lia.
    simpl in *. destruct (read_line in_) as [line in'].
    destruct (empty line); [reflexivity|].
    destruct (starts_with "#include " line).
    + destruct (open_include ifstream search_path (include_path line))
        as [include_in|]; [|reflexivity].
      destruct (read ifstream fuel include_in (include_path line) search_path
                  (push_event r
                     (Build_preproc_event c (line_num - 1) "include"
                        (include_path line)), c)) as [[r' c']|what|] eqn:E.
      * rewrite (IHread _ _ _ _ ltac:(rewrite E; discriminate) _ Hle'), E.
        now apply IHloop.
      * now rewrite (IHread _ _ _ _ ltac:(rewrite E; discriminate) _ Hle'), E.
      * now elim Hfin.
    + now apply IHloop.
Qed.

Lemma new_program_reader_fuel fuel fuel' in_ name search_path :
  finished (new_program_reader ifstream fuel in_ name search_path) ->
  (fuel <= fuel')%nat ->
  new_program_reader ifstream fuel' in_ name search_path =
  new_program_reader ifstream fuel in_ name search_path.
Proof.
  unfold new_program_reader. intros Hfin Hle.
  destruct (fuel_monotone fuel) as [Hread _].
  rewrite (Hread _ _ _ _) with (fuel' := fuel'); auto.
  intros E. apply Hfin. now rewrite E.
Qed.

End Fuel.

(** ** The loop and its relation *)

Section RunsOfRead.

Variable ifstream : string -> option string.
Variable search_path : list string.

(** A run of [read_loop] that returns is a run of the relation. *)
Lemma read_loop_returns (fuel : nat) :
  forall in_ path line_num r c r' c',
    read_loop ifstream fuel in_ path search_path line_num (r, c)
    = Returns (r', c') ->
    exists events text,
      loop_returns ifstream search_path in_ path line_num c events text c'
      /\ r' = Build_program_reader (program_ r ++ text)%string
                (history_ r ++ events).
Proof.
  induction fuel as [|fuel IH]; intros in_ path line_num r c r' c' H;
    [discriminate|].
  destruct (read_line in_) as [line in'] eqn:E.
  destruct (empty line) eqn:El.
  - destruct line; [|discriminate]. apply read_line_empty in E.
    destruct E as [-> ->]. rewrite read_loop_end in H. inversion H; subst.
    exists [Build_preproc_event c' (line_num - 1) "end" path], EmptyString.
    split; [constructor|]. unfold push_event.
    now rewrite append_empty_right.
  - destruct (plain line) eqn:Hp.
    + rewrite (read_loop_plain _ _ _ _ _ _ _ _ _ _ E El Hp) in H.
      apply IH in H. destruct H as (events & text & Hrun & ->).
      exists events, (line ++ text)%string. split.
      * now apply loop_plain with (in' := in').
      * simpl. now rewrite append_assoc.
    + rewrite (read_loop_include _ _ _ _ _ _ _ _ _ _ E El Hp) in H.
      destruct (open_include ifstream search_path (include_path line))
        as [include_in|] eqn:Ho; [|discriminate].
      destruct fuel as [|fuel']; [discriminate|]. rewrite read_S in H.
      destruct (read_loop ifstream fuel' include_in (include_path line)
                  search_path 1 _) as [[r1 c1]|what|] eqn:E1;
        try discriminate.
      assert (IH' : forall in_ path line_num r c r' c',
                 read_loop ifstream fuel' in_ path search_path line_num (r, c)
                 = Returns (r', c') ->
                 read_loop ifstream (S fuel') in_ path search_path line_num
                   (r, c) = Returns (r', c')).
      { intros. destruct (fuel_monotone ifstream fuel') as [_ Hm].
        rewrite Hm; [assumption| |lia].
        unfold finished. match goal with H : _ = Returns _ |- _ =>
                                           rewrite H end. discriminate. }
      apply IH', IH in E1. destruct E1 as (events1 & text1 & Hrun1 & ->).
      apply IH in H. destruct H as (events2 & text2 & Hrun2 & ->).
      eexists; exists (text1 ++ text2)%string. split.
      * eapply loop_include; eauto.
      * unfold push_event; simpl.
        f_equal; [apply append_assoc | now rewrite <- !app_assoc].
Qed.

(** A run of the relation is a run of [read_loop], given the fuel. *)
Lemma loop_returns_read in_ path line_num c events text c' :
  loop_returns ifstream search_path in_ path line_num c events text c' ->
  exists fuel0, forall fuel r, (fuel0 <= fuel)%nat ->
    read_loop ifstream fuel in_ path search_path line_num (r, c) =
    Returns (Build_program_reader (program_ r ++ text)%string
               (history_ r ++ events), c').
Proof.
  induction 1 as [path line_num c
                 |in_ line in' path line_num c events text c' E El Hp _ IH
                 |in_ line in' include_in path line_num c events1 text1 c1
                    events2 text2 c2 E El Hp Ho _ IH1 _ IH2].
  - exists 1%nat. intros [|fuel] r Hf; [lia|]. rewrite read_loop_end.
    unfold push_event. now rewrite append_empty_right.
  - destruct IH as [fuel0 IH]. exists (S fuel0).
    intros [|fuel] r Hf; [lia|].
    rewrite (read_loop_plain _ _ _ _ _ _ _ _ _ _ E El Hp), IH by lia.
    simpl. now rewrite append_assoc.
  - destruct IH1 as [fuel1 IH1], IH2 as [fuel2 IH2].
    exists (S (S (Nat.max fuel1 fuel2))). intros [|[|fuel]] r Hf; try lia.
    rewrite (read_loop_include _ _ _ _ _ _ _ _ _ _ E El Hp), Ho, read_S.
    rewrite IH1 by lia.
    destruct (fuel_monotone ifstream fuel) as [_ Hm].
    rewrite Hm with (fuel' := S fuel); [|rewrite IH2 by lia; discriminate|lia].
    rewrite IH2 by lia. unfold push_event; simpl.
    apply same_return;
      [apply append_assoc | now rewrite <- !app_assoc | reflexivity].
Qed.

End RunsOfRead.

(** ** The log of a returning run *)

Lemma ascending_nil : ascending [].
Proof. intros i j ei ej _ H. destruct i; discriminate. Qed.

Lemma ascending_cons (e : preproc_event) (events : list preproc_event) :
  (forall e', In e' events -> concat_line_num_ e <= concat_line_num_ e') ->
  ascending events -> ascending (e :: events).
Proof.
  intros Hle Hasc [|i] [|j] ei ej Hij Hi Hj; simpl in *.
  - inversion Hi; inversion Hj; subst. lia.
  - inversion Hi; subst. apply Hle. eapply nth_error_In; eauto.
  - lia.
  - apply (Hasc i j); auto. lia.
Qed.

Lemma ascending_app (l1 l2 : list preproc_event) :
  ascending l1 -> ascending l2 ->
  (forall a b, In a l1 -> In b l2 -> concat_line_num_ a <= concat_line_num_ b) ->
  ascending (l1 ++ l2).
Proof.
  induction l1 as [|e l1 IH]; intros H1 H2 H12; simpl; [assumption|].
  apply ascending_cons.
  - intros e' Hin. apply in_app_or in Hin. destruct Hin as [Hin|Hin].
    + destruct (In_nth_error _ _ Hin) as [n Hn].
      apply (H1 0%nat (S n) e e'); simpl; auto. lia.
    + apply H12; simpl; auto.
  - apply IH; auto.
    + intros i j ei ej Hij Hi Hj. apply (H1 (S i) (S j)); simpl; auto. lia.
    + intros a b Ha Hb. apply H12; simpl; auto.
Qed.

Section LogOfRun.

Variable ifstream : string -> option string.
Variable search_path : list string.

(** The events of a run lie between the counter at its start and the
    counter at its end, in ascending order. *)
Lemma loop_returns_ascending in_ path line_num c events text c' :
  loop_returns ifstream search_path in_ path line_num c events text c' ->
  c <= c'
  /\ (forall e, In e events -> c <= concat_line_num_ e <= c')
  /\ ascending events.
Proof.
  induction 1 as [path line_num c
                 |in_ line in' path line_num c events text c' E El Hp _ IH
                 |in_ line in' include_in path line_num c events1 text1 c1
                    events2 text2 c2 E El Hp Ho _ IH1 _ IH2].
  - split; [lia|]. split.
    + intros e [<-|[]]; simpl; lia.
    + apply ascending_cons; [intros e' []|apply ascending_nil].
  - destruct IH as (Hc & Hb & Ha). split; [lia|]. split; [|exact Ha].
    intros e He. specialize (Hb e He). lia.
  - destruct IH1 as (Hc1 & Hb1 & Ha1), IH2 as (Hc2 & Hb2 & Ha2).
    assert (Hb : forall e,
               In e (events1 ++ Build_preproc_event c1 line_num "restart" path
                       :: events2) -> c <= concat_line_num_ e <= c2).
    { intros e He. apply in_app_or in He. destruct He as [He|[<-|He]].
      - specialize (Hb1 e He). lia.
      - simpl. lia.
      - specialize (Hb2 e He). lia. }
    split; [lia|]. split.
    + intros e [<-|[<-|He]]; simpl; try lia. now apply Hb.
    + apply ascending_cons.
      { intros e' [<-|He]; simpl; [lia|]. apply Hb in He. lia. }
      apply ascending_cons.
      { intros e' He; simpl. apply Hb in He. lia. }
      apply ascending_app; auto.
      * apply ascending_cons; auto. intros e' He; simpl.
        specialize (Hb2 e' He). lia.
      * intros a b Ha [<-|Hb']; simpl.
        -- specialize (Hb1 a Ha). lia.
        -- specialize (Hb1 a Ha). specialize (Hb2 b Hb'). lia.
Qed.

(** The scan of [include_stack] over the events of a run. *)
Lemma loop_returns_scan in_ path line_num c events text c' :
  loop_returns ifstream search_path in_ path line_num c events text c' ->
  scan_pops events c'.
Proof.
  induction 1 as [path line_num c
                 |in_ line in' path line_num c events text c' E El Hp _ IH
                 |in_ line in' include_in path line_num c events1 text1 c1
                    events2 text2 c2 E El Hp Ho _ IH1 _ IH2];
    intros target result file file_start concat_start rest.
  - simpl. destruct (target <=? c) eqn:Hc.
    + left. intros Habs. now apply app_eq_nil in Habs.
    + right. split; [lia|]. destruct result as [|x result].
      * left. now split.
      * right. split; [discriminate|]. now exists file, file_start, concat_start.
  - apply IH.
  - simpl. destruct (target <=? c) eqn:Hc.
    + left. intros Habs. now apply app_eq_nil in Habs.
    + rewrite <- app_assoc. simpl.
      destruct (IH1 target (result ++ [(file, line_num - 1 + 1)])
                  (include_path line) 0 c
                  (Build_preproc_event c1 line_num "restart" path
                     :: events2 ++ rest))
        as [Hfound|(Hc1 & [[Habs _]|(_ & f' & s' & k' & Heq)])].
      * now left.
      * now apply app_eq_nil in Habs.
      * rewrite Heq, removelast_last. simpl.
        replace (target <=? c1) with false by lia. apply IH2.
Qed.

(** The reader of a completed pass: the program is the text of a run that
    started with the counter at 0, the history its events behind the
    start event. *)
Lemma completed_pass fuel in_ name r :
  new_program_reader ifstream fuel in_ name search_path = Returns r ->
  exists events c',
    loop_returns ifstream search_path in_ name 1 0 events (program_ r) c'
    /\ history_ r = Build_preproc_event 0 0 "start" name :: events.
Proof.
  unfold new_program_reader. destruct fuel as [|fuel]; [discriminate|].
  rewrite read_S.
  destruct (read_loop ifstream fuel in_ name search_path 1 _)
    as [[r' c']|what|] eqn:E; try discriminate.
  intros H; inversion H; subst r'. apply read_loop_returns in E.
  destruct E as (events & text & Hrun & ->). now exists events, c'.
Qed.

End LogOfRun.

(** ** Includes that cannot be opened *)

Section Throws.

Variable ifstream : string -> option string.
Variable search_path : list string.

Lemma open_include_none (dirs : list string) (incl_path : string) :
  (forall dir, In dir dirs ->
               ifstream (c_str (dir ++ incl_path)%string) = None) ->
  open_include ifstream dirs incl_path = None.
Proof.
  induction dirs as [|dir dirs IH]; intros H; simpl; [reflexivity|].
  rewrite (H dir) by (simpl; auto). apply IH. intros d Hd.
  apply H. simpl; auto.
Qed.

(** Whether a run returns does not depend on where the counter stands. *)
Lemma loop_returns_shift in_ path line_num c events text c' :
  loop_returns ifstream search_path in_ path line_num c events text c' ->
  forall d, exists events',
    loop_returns ifstream search_path in_ path line_num (c + d) events' text
      (c' + d).
Proof.
  induction 1 as [path line_num c
                 |in_ line in' path line_num c events text c' E El Hp _ IH
                 |in_ line in' include_in path line_num c events1 text1 c1
                    events2 text2 c2 E El Hp Ho _ IH1 _ IH2]; intros d.
  - eexists. constructor.
  - destruct (IH d) as [events' H']. exists events'.
    apply loop_plain with (in' := in'); auto.
    now replace (c + d + 1) with (c + 1 + d) by lia.
  - destruct (IH1 d) as [events1' H1'], (IH2 d) as [events2' H2'].
    eexists. eapply loop_include; eauto.
Qed.

Lemma loop_throws_read in_ :
  loop_throws ifstream search_path in_ ->
  forall path line_num r c, exists fuel0, forall fuel, (fuel0 <= fuel)%nat ->
    read_loop ifstream fuel in_ path search_path line_num (r, c) =
    Throws "could not find include file".
Proof.
  induction 1 as [in_ line in' E El Hp Hnone
                 |in_ line in' E El Hp _ IH
                 |in_ line in' include_in E El Hp Ho _ IH
                 |in_ line in' include_in c0 events text c0' E El Hp Ho Hrun _ IH];
    intros path line_num r c.
  - exists 1%nat. intros [|fuel] Hf; [lia|].
    rewrite (read_loop_include _ _ _ _ _ _ _ _ _ _ E El Hp).
    now rewrite open_include_none.
  - destruct (IH path (line_num + 1) (write_line r line) (c + 1))
      as [fuel0 IH'].
    exists (S fuel0). intros [|fuel] Hf; [lia|].
    rewrite (read_loop_plain _ _ _ _ _ _ _ _ _ _ E El Hp). apply IH'. lia.
  - destruct (IH (include_path line) 1
                (push_event
                   (push_event r (Build_preproc_event c (line_num - 1)
                                    "include" (include_path line)))
                   (Build_preproc_event c 0 "start" (include_path line))) c)
      as [fuel0 IH'].
    exists (S (S fuel0)). intros [|[|fuel]] Hf; try lia.
    rewrite (read_loop_include _ _ _ _ _ _ _ _ _ _ E El Hp), Ho, read_S.
    now rewrite IH' by lia.
  - destruct (loop_returns_shift _ _ _ _ _ _ _ Hrun (c - c0)) as [events' Hrun'].
    replace (c0 + (c - c0)) with c in Hrun' by lia.
    destruct (loop_returns_read _ _ _ _ _ _ _ _ _ Hrun') as [fuel1 Hret].
    set (r0 := push_event
                 (push_event r (Build_preproc_event c (line_num - 1)
                                  "include" (include_path line)))
                 (Build_preproc_event c 0 "start" (include_path line))).
    destruct (IH path (line_num + 1)
                (push_event
                   (Build_program_reader (program_ r0 ++ text)%string
                      (history_ r0 ++ events'))
                   (Build_preproc_event (c0' + (c - c0)) line_num "restart"
                      path))
                (c0' + (c - c0))) as [fuel2 IH'].
    exists (S (S (Nat.max fuel1 fuel2))). intros [|[|fuel]] Hf; try lia.
    rewrite (read_loop_include _ _ _ _ _ _ _ _ _ _ E El Hp), Ho, read_S.
    fold r0. rewrite Hret by lia.
    destruct (fuel_monotone ifstream fuel) as [_ Hm].
    rewrite Hm with (fuel' := S fuel); [|rewrite IH' by lia; discriminate|lia].
    apply IH'. lia.
Qed.

End Throws.

(** ** Lines of a concatenation *)

Lemma read_line_closed (s line rest : string) :
  read_line s = (line, rest) -> rest <> EmptyString -> closed line = true.
Proof.
  revert line rest; induction s as [|c s IH]; simpl; intros line rest H Hr.
  - inversion H; subst. now elim Hr.
  - destruct (Ascii.eqb c newline) eqn:Ec.
    + inversion H; subst. simpl. exact Ec.
    + destruct (read_line s) as [l r] eqn:E. inversion H; subst.
      specialize (IH l rest eq_refl Hr). destruct l as [|d l]; [|exact IH].
      apply read_line_empty in E. destruct E as [_ ->]. now elim Hr.
Qed.

Lemma closed_app (a b : string) :
  closed a = true -> closed b = true -> closed (a ++ b) = true.
Proof.
  induction a as [|c a IH]; simpl; intros Ha Hb; [assumption|].
  destruct a as [|d a]; simpl in *.
  - destruct b; [assumption|exact Hb].
  - now apply IH.
Qed.

Lemma lines_of_not_nil (c : ascii) (s : string) : lines_of (String c s) <> [].
Proof.
  simpl. destruct (Ascii.eqb c newline); [discriminate|].
  destruct (lines_of s); discriminate.
Qed.

Lemma lines_of_app (a b : string) :
  closed a = true -> lines_of (a ++ b) = lines_of a ++ lines_of b.
Proof.
  induction a as [|c a IH]; intros Ha; [reflexivity|].
  change (String c a ++ b)%string with (String c (a ++ b)).
  destruct a as [|d a].
  - simpl in Ha. simpl. now rewrite Ha.
  - assert (Ha' : closed (String d a) = true) by exact Ha.
    specialize (IH Ha').
    change (lines_of (String c (String d a ++ b))) with
      (if Ascii.eqb c newline
       then String c EmptyString :: lines_of (String d a ++ b)
       else match lines_of (String d a ++ b) with
            | [] => [String c EmptyString]
            | line :: lines => String c line :: lines
            end).
    change (lines_of (String c (String d a))) with
      (if Ascii.eqb c newline
       then String c EmptyString :: lines_of (String d a)
       else match lines_of (String d a) with
            | [] => [String c EmptyString]
            | line :: lines => String c line :: lines
            end).
    rewrite IH. destruct (Ascii.eqb c newline); [reflexivity|].
    destruct (lines_of (String d a)) as [|l ls] eqn:El; [|reflexivity].
    now apply lines_of_not_nil in El.
Qed.

Lemma append_empty (a b : string) :
  (a ++ b)%string = EmptyString -> a = EmptyString /\ b = EmptyString.
Proof. destruct a; simpl; [auto|discriminate]. Qed.

Section Prefix.

Variable ifstream : string -> option string.

(** The loop over plain lines in front of the lines [lines]: they are
    written, and the loop goes on behind them. *)
Lemma read_loop_prefix (pre : list string) :
  forall in_ lines,
    lines_of in_ = pre ++ lines -> forallb plain pre = true ->
    exists text in',
      in_ = (text ++ in')%string /\ lines_of in' = lines
      /\ (lines <> [] -> closed text = true)
      /\ forall fuel path search_path line_num r c,
          read_loop ifstream (List.length pre + fuel) in_ path search_path
            line_num (r, c) =
          read_loop ifstream fuel in' path search_path
            (line_num + Z.of_nat (List.length pre))
            (Build_program_reader (program_ r ++ text)%string (history_ r),
             c + Z.of_nat (List.length pre)).
Proof.
  induction pre as [|line pre IH]; intros in_ lines Hl Hp.
  - exists EmptyString, in_. repeat split; auto.
    intros fuel path search_path line_num r c. simpl.
    rewrite append_empty_right, !Z.add_0_r. now destruct r.
  - simpl in Hl. apply lines_of_cons in Hl.
    destruct Hl as (rest & E & El & Hr & ->).
    simpl in Hp. apply andb_true_iff in Hp. destruct Hp as [Hp Hps].
    destruct (IH rest lines Hr Hps) as (text & in' & -> & Hl' & Hc & Hrun).
    exists (line ++ text)%string, in'. split; [now rewrite append_assoc|].
    split; [assumption|]. split.
    + intros Hne. apply closed_app; [|now apply Hc].
      apply (read_line_closed _ _ _ E). intros Habs.
      apply append_empty in Habs. destruct Habs as [_ ->].
      simpl in Hl'. now subst lines.
    + intros fuel path search_path line_num r c.
      change (List.length (line :: pre) + fuel)%nat
        with (S (List.length pre + fuel)).
      rewrite (read_loop_plain _ _ _ _ _ _ _ _ _ _ E El Hp), Hrun.
      unfold write_line. cbn [program_ history_]. rewrite append_assoc.
      replace (line_num + Z.of_nat (List.length (line :: pre)))
        with (line_num + 1 + Z.of_nat (List.length pre))
        by (simpl List.length; lia).
      replace (c + Z.of_nat (List.length (line :: pre)))
        with (c + 1 + Z.of_nat (List.length pre))
        by (simpl List.length; lia).
      reflexivity.
Qed.

End Prefix.

(** ** The include line *)

Lemma string_length_app (a b : string) :
  String.length (a ++ b) = (String.length a + String.length b)%nat.
Proof. induction a as [|c a IH]; simpl; [reflexivity | now rewrite IH]. Qed.

Lemma length_spaces (k : nat) : String.length (spaces k) = k.
Proof. induction k as [|k IH]; simpl; [reflexivity | now rewrite IH]. Qed.

Lemma prefix_app (p s : string) :
  String.prefix p s = true <-> exists rest, s = (p ++ rest)%string.
Proof.
  revert s; induction p as [|c p IH]; intros s.
  - split; [intros _; now exists s | intros _; now destruct s].
  - destruct s as [|d s]; simpl.
    + split; [discriminate | intros [rest H]; discriminate].
    + destruct (ascii_dec c d) as [->|Hcd].
      * rewrite IH. split; intros [rest H]; exists rest;
          [now rewrite H | now inversion H].
      * split; [discriminate|]. intros [rest H]. inversion H. now elim Hcd.
Qed.

Lemma char_at_app (a s : string) (i : Z) :
  0 <= i -> char_at (a ++ s) (Z.of_nat (String.length a) + i) = char_at s i.
Proof.
  intros Hi. unfold char_at.
  destruct (Z.ltb_spec (Z.of_nat (String.length a) + i) 0) as [Hlt|_]; [lia|].
  destruct (Z.ltb_spec i 0) as [Hlt|_]; [lia|].
  replace (Z.to_nat (Z.of_nat (String.length a) + i))
    with (String.length a + Z.to_nat i)%nat by lia.
  induction a as [|c a IH]; simpl; [reflexivity | exact IH].
Qed.

Lemma skip_forward_spaces (k : nat) :
  forall (a rest : string) (turns : nat),
    (k < turns)%nat -> Ascii.eqb (char_at rest 0) space = false ->
    skip_forward turns (a ++ spaces k ++ rest) (Z.of_nat (String.length a)) =
    Z.of_nat (String.length a + k).
Proof.
  induction k as [|k IH]; intros a rest turns Hk Hrest;
    (destruct turns as [|turns]; [lia|]); simpl skip_forward.
  - replace (Z.of_nat (String.length a)) with (Z.of_nat (String.length a) + 0)
      by lia.
    rewrite char_at_app by lia. simpl. rewrite Hrest. f_equal. lia.
  - change (spaces (S k) ++ rest)%string
      with (String space (spaces k ++ rest)).
    assert (Hc : char_at (a ++ String space (spaces k ++ rest))
                   (Z.of_nat (String.length a)) = space).
    { replace (Z.of_nat (String.length a))
        with (Z.of_nat (String.length a) + 0) by lia.
      now rewrite char_at_app by lia. }
    rewrite Hc. simpl Ascii.eqb. cbv iota.
    specialize (IH (a ++ String space EmptyString)%string rest turns).
    rewrite append_assoc, string_length_app in IH. simpl in IH.
    replace (Z.of_nat (String.length a) + 1)
      with (Z.of_nat (String.length a + 1)) by lia.
    rewrite IH by (auto; lia). f_equal. lia.
Qed.

Lemma skip_backward_stop (turns : nat) (line : string) (end_ : Z) :
  Ascii.eqb (char_at line end_) space = false ->
  skip_backward turns line end_ = end_.
Proof. intros H. destruct turns; simpl; [reflexivity | now rewrite H]. Qed.

Lemma last_of_line (body : string) :
  char_at (body ++ endl) (Z.of_nat (String.length (body ++ endl)) - 1) = newline.
Proof.
  rewrite string_length_app. change (String.length endl) with 1%nat.
  replace (Z.of_nat (String.length body + 1) - 1)
    with (Z.of_nat (String.length body) + 0) by lia.
  now rewrite char_at_app by lia.
Qed.

Lemma substring_middle (a p b : string) :
  substring (String.length a) (String.length p) (a ++ p ++ b) = p.
Proof.
  induction a as [|c a IH]; simpl; [|exact IH].
  induction p as [|c p IH]; simpl; [now destruct b | now rewrite IH].
Qed.

(** The path of an include line that is closed by a newline. *)
Lemma include_path_of_line (n : nat) (p : string) :
  Ascii.eqb (char_at p 0) space = false ->
  include_path ("#include " ++ spaces n ++ p ++ endl) = p.
Proof.
  intros Hp. unfold include_path.
  set (line := ("#include " ++ spaces n ++ p ++ endl)%string).
  assert (Hline : line = ("#include" ++ spaces (S n) ++ p ++ endl)%string)
    by reflexivity.
  assert (Hlen : String.length line = (8 + S n + String.length p + 1)%nat).
  { rewrite Hline, !string_length_app, length_spaces.
    change (String.length endl) with 1%nat. simpl String.length. lia. }
  assert (Hstart : skip_forward (String.length line) line
                     (Z.of_nat (String.length "#include")) = Z.of_nat (9 + n)).
  { transitivity (Z.of_nat (String.length "#include" + S n));
      [|f_equal; simpl; lia].
    apply (skip_forward_spaces (S n) "#include" (p ++ endl)
             (String.length line)).
    - rewrite Hlen. lia.
    - destruct p as [|c p]; [reflexivity | exact Hp]. }
  assert (Hend : skip_backward (String.length line) line
                   (Z.of_nat (String.length line) - 1)
                 = Z.of_nat (String.length line) - 1).
  { apply skip_backward_stop.
    assert (Hl : line = (("#include " ++ spaces n ++ p) ++ endl)%string)
      by (unfold line; now rewrite !append_assoc).
    rewrite Hl, last_of_line. reflexivity. }
  rewrite Hstart, Hend. unfold substr.
  destruct (Z.ltb_spec (Z.of_nat (String.length line) - 1 - Z.of_nat (9 + n)) 0);
    [rewrite Hlen in *; lia|].
  replace (Z.to_nat (Z.of_nat (String.length line) - 1 - Z.of_nat (9 + n)))
    with (String.length p) by (rewrite Hlen; lia).
  rewrite Nat2Z.id.
  assert (Hl : line = (("#include " ++ spaces n) ++ p ++ endl)%string)
    by (unfold line; now rewrite !append_assoc).
  rewrite Hl.
  replace (9 + n)%nat with (String.length ("#include " ++ spaces n)).
  - apply substring_middle.
  - rewrite string_length_app, length_spaces. reflexivity.
Qed.

(** The loops of [include_path] leave by their test, inside the line: the
    turns given to [skip_forward] and [skip_backward] never run out on a
    line that begins with [#include] and a space, the indices stay within
    the string and its NUL, and [substr] starts inside the string. *)
Lemma char_at_end (s : string) : char_at s (Z.of_nat (String.length s)) = zero.
Proof.
  unfold char_at.
  destruct (Z.ltb_spec (Z.of_nat (String.length s)) 0) as [_|_]; [reflexivity|].
  rewrite Nat2Z.id. induction s as [|c s IH]; simpl; [reflexivity | exact IH].
Qed.

Lemma skip_forward_exits (turns : nat) :
  forall line start,
    0 <= start <= Z.of_nat (String.length line) ->
    Z.of_nat (String.length line) - start < Z.of_nat turns ->
    start <= skip_forward turns line start <= Z.of_nat (String.length line)
    /\ Ascii.eqb (char_at line (skip_forward turns line start)) space = false.
Proof.
  induction turns as [|turns IH]; intros line start Hs Ht; [lia|].
  simpl. destruct (Ascii.eqb (char_at line start) space) eqn:E.
  - assert (Hne : start <> Z.of_nat (String.length line)).
    { intros ->. rewrite char_at_end in E. discriminate. }
    destruct (IH line (start + 1)) as [Hb Hc]; [lia | lia |].
    split; [lia | exact Hc].
  - split; [lia | exact E].
Qed.

Lemma skip_backward_exits (turns : nat) :
  forall line lo end_,
    Ascii.eqb (char_at line lo) space = false ->
    lo <= end_ -> end_ - lo < Z.of_nat turns ->
    lo <= skip_backward turns line end_ <= end_
    /\ Ascii.eqb (char_at line (skip_backward turns line end_)) space = false.
Proof.
  induction turns as [|turns IH]; intros line lo end_ Hlo Hle Ht; [lia|].
  simpl. destruct (Ascii.eqb (char_at line end_) space) eqn:E.
  - assert (Hne : end_ <> lo) by (intros ->; rewrite Hlo in E; discriminate).
    destruct (IH line lo (end_ - 1) Hlo) as [Hb Hc]; [lia | lia |].
    split; [lia | exact Hc].
  - split; [lia | exact E].
Qed.

Lemma include_path_loops_exit (line : string) :
  starts_with "#include " line = true ->
  let start := skip_forward (String.length line) line
                 (Z.of_nat (String.length "#include")) in
  let end_ := skip_backward (String.length line) line
                (Z.of_nat (String.length line) - 1) in
  8 <= start <= Z.of_nat (String.length line)
  /\ Ascii.eqb (char_at line start) space = false
  /\ 7 <= end_ <= Z.of_nat (String.length line) - 1
  /\ Ascii.eqb (char_at line end_) space = false.
Proof.
  intros H. apply prefix_app in H. destruct H as [rest ->].
  set (line := ("#include " ++ rest)%string).
  assert (Hlen : 9 <= Z.of_nat (String.length line)).
  { unfold line. rewrite string_length_app. simpl String.length. lia. }
  cbv zeta. change (Z.of_nat (String.length "#include")) with 8.
  destruct (skip_forward_exits (String.length line) line 8) as [Hb Hc];
    [lia | lia |].
  destruct (skip_backward_exits (String.length line) line 7
              (Z.of_nat (String.length line) - 1)) as [Hb' Hc'];
    [reflexivity | lia | lia |].
  repeat split; try assumption; lia.
Qed.

(** What [include_path] does with blanks in front of the newline, and with
    a last line that has no newline. *)
Example include_path_trailing_blanks :
  include_path ("#include a.stan  " ++ endl) = "a.stan  "%string.
Proof. reflexivity. Qed.

Example include_path_unterminated :
  include_path "#include a.stan" = "a.sta"%string.
Proof. reflexivity. Qed.

(** ** The queries *)

Lemma include_trace_resolve (r : program_reader) (target : Z) :
  include_trace r target =
  match resolve r target with
  | None => Throws (not_found target)
  | Some x => Returns (format_trace x)
  end.
Proof.
  unfold include_trace, resolve.
  now destruct ((List.length (include_stack r target) <? 1)%nat
                || (target <? 1)).
Qed.

Lemma include_stack_from_uncovered (history : list preproc_event) (target : Z) :
  (forall e, In e history -> ~ covers e target) ->
  forall result file file_start concat_start,
    include_stack_from history target result file file_start concat_start = [].
Proof.
  unfold covers.
  induction history as [|e history IH]; intros Hun result file file_start
    concat_start; simpl; [reflexivity|].
  destruct (Z.leb_spec target (concat_line_num_ e)) as [Hle|_].
  - exfalso. apply (Hun e); simpl; auto.
  - assert (Hun' : forall e', In e' history -> ~ target <= concat_line_num_ e')
      by (intros e' He'; apply Hun; simpl; auto).
    destruct ((action_ e =? "start")%string || (action_ e =? "restart")%string);
      [now apply IH|].
    destruct (action_ e =? "end")%string.
    + destruct (List.length result =? 0)%nat; [reflexivity | now apply IH].
    + destruct (action_ e =? "include")%string; now apply IH.
Qed.

(** The turns of the scan of [include_stack]. *)
Lemma scan_found e history target result file file_start concat_start :
  target <= concat_line_num_ e ->
  include_stack_from (e :: history) target result file file_start concat_start
  = result ++ [(file, file_start + target - concat_start)].
Proof.
  intros H. simpl.
  destruct (Z.leb_spec target (concat_line_num_ e)); [reflexivity | lia].
Qed.

Lemma scan_start c l p history target result file file_start concat_start :
  c < target ->
  include_stack_from (Build_preproc_event c l "start" p :: history) target
    result file file_start concat_start
  = include_stack_from history target result p l c.
Proof.
  intros H. simpl. destruct (Z.leb_spec target c); [lia | reflexivity].
Qed.

Lemma scan_restart c l p history target result file file_start concat_start :
  c < target ->
  include_stack_from (Build_preproc_event c l "restart" p :: history) target
    result file file_start concat_start
  = include_stack_from history target result p l c.
Proof.
  intros H. simpl. destruct (Z.leb_spec target c); [lia | reflexivity].
Qed.

Lemma scan_include c l p history target result file file_start concat_start :
  c < target ->
  include_stack_from (Build_preproc_event c l "include" p :: history) target
    result file file_start concat_start
  = include_stack_from history target (result ++ [(file, l + 1)]) file
      file_start concat_start.
Proof.
  intros H. simpl. destruct (Z.leb_spec target c); [lia | reflexivity].
Qed.

Lemma scan_end c l p history target result x file file_start concat_start :
  c < target ->
  include_stack_from (Build_preproc_event c l "end" p :: history) target
    (result ++ [x]) file file_start concat_start
  = include_stack_from history target result file file_start concat_start.
Proof.
  intros H. simpl. destruct (Z.leb_spec target c); [lia|].
  rewrite List.length_app, Nat.add_comm, removelast_last. reflexivity.
Qed.

Lemma resolve_found (r : program_reader) (target : Z) (x : dump_t)
      (xs : dumps_t) :
  1 <= target -> include_stack r target = x :: xs ->
  resolve r target = Some (x :: xs).
Proof.
  intros Ht Hs. unfold resolve. rewrite Hs.
  destruct (Z.ltb_spec target 1); [lia | reflexivity].
Qed.

Lemma included_from_S (x : dumps_t) (i : nat) :
  included_from x (S i) =
  (included_line (dump_at x i) ++ included_from x i)%string.
Proof. unfold included_line. rewrite !append_assoc. reflexivity. Qed.

Lemma dump_at_middle (outer rest : dumps_t) (x : dump_t) :
  dump_at (outer ++ x :: rest) (List.length outer) = x.
Proof. unfold dump_at. apply nth_middle. Qed.

Lemma included_from_app (outer : list dump_t) :
  forall rest,
    included_from (outer ++ rest) (List.length outer) =
    text_of (map included_line (rev outer)).
Proof.
  induction outer as [|x outer IH] using rev_ind; intros rest;
    [reflexivity|].
  rewrite List.length_app, Nat.add_comm.
  change (List.length [x] + List.length outer)%nat
    with (S (List.length outer)).
  rewrite included_from_S, rev_app_distr, <- app_assoc.
  change ([x] ++ rest) with (x :: rest).
  rewrite dump_at_middle, IH. reflexivity.
Qed.

(** * Properties of the specification *)

(** C1.  The example of the specification: [main] has the lines
    [model {], [#include helper.stanfunc] and [}], the search path is
    [inc/], and [inc/helper.stanfunc] has the lines [real f(real x) {],
    [return x;] and [}].  With fuel 8 or more the pass returns; the program
    is the text of five lines [model {], [real f(real x) {], [return x;],
    [}], [}]; line 1 resolves to [(main,1)], line 2 to
    [(main,2),(helper.stanfunc,1)], line 4 to
    [(main,2),(helper.stanfunc,3)] and line 5 to [(main,3)]. *)
Theorem example_flattened_and_resolved (fuel : nat) :
  exists r,
    new_program_reader example_files (8 + fuel) example_main "main" ["inc/"%string]
    = Returns r
    /\ program_ r
       = document ["model {"; "real f(real x) {"; "return x;"; "}"; "}"]%string
    /\ List.length (lines_of (program_ r)) = 5%nat
    /\ resolve r 1 = Some [("main"%string, 1)]
    /\ resolve r 2 = Some [("main"%string, 2); ("helper.stanfunc"%string, 1)]
    /\ resolve r 4 = Some [("main"%string, 2); ("helper.stanfunc"%string, 3)]
    /\ resolve r 5 = Some [("main"%string, 3)].
Proof.
  eexists. split.
  - rewrite new_program_reader_fuel with (fuel := 8%nat);
      [vm_compute; reflexivity | vm_compute; discriminate | lia].
  - vm_compute. repeat split.
Qed.

(** C3.  A primary document without include lines is written to the program
    as it is, and every line number [k] of it, counted from 1, resolves to
    the one entry [(name, k)], where [name] is the name given to the
    reader.  The pass returns with any fuel above the number of lines plus
    one. *)
Theorem no_include_verbatim (ifstream : string -> option string)
        (in_ name : string) (search_path : list string) (fuel : nat) :
  forallb plain (lines_of in_) = true ->
  (List.length (lines_of in_) + 2 <= fuel)%nat ->
  exists r,
    new_program_reader ifstream fuel in_ name search_path = Returns r
    /\ program_ r = in_
    /\ forall k, 1 <= k <= Z.of_nat (List.length (lines_of in_)) ->
                 resolve r k = Some [(name, k)].
Proof.
  intros Hp Hf. destruct fuel as [|fuel]; [lia|].
  unfold new_program_reader. rewrite read_S.
  rewrite (read_loop_plain_text ifstream (lines_of in_)) by (auto; lia).
  eexists. split; [reflexivity|]. split; [reflexivity|].
  intros k Hk. apply resolve_found; [lia|].
  unfold include_stack, push_event. cbn [history_ app].
  rewrite scan_start, scan_found by (cbn [concat_line_num_]; lia).
  cbn [app]. now replace (0 + k - 0) with k by lia.
Qed.

(** C7.  For a chain that is not empty, [outer] followed by the innermost
    entry [inner], the text starts with the line
    [in file '<path>' at line <line>] of [inner], and goes on with one line
    [included from file '<path>' at line <line>] for every entry of
    [outer], from the last one down to the first. *)
Theorem format_trace_lines (outer : dumps_t) (inner : dump_t) :
  format_trace (outer ++ [inner]) =
  (in_line inner ++ text_of (map included_line (rev outer)))%string.
Proof.
  unfold format_trace.
  replace (List.length (outer ++ [inner]) - 1)%nat with (List.length outer)
    by (rewrite List.length_app; simpl; lia).
  rewrite dump_at_middle, included_from_app. unfold in_line.
  now rewrite !append_assoc.
Qed.

(** C8.  In the log of a pass that returned, the positions in the
    concatenated program do not go down: an event that is not behind
    another in the log has a [concat_line_num_] that is not above the
    other's. *)
Theorem history_ascending (ifstream : string -> option string) (fuel : nat)
        (in_ name : string) (search_path : list string) (r : program_reader) :
  new_program_reader ifstream fuel in_ name search_path = Returns r ->
  forall i j ei ej,
    (i <= j)%nat ->
    nth_error (history_ r) i = Some ei -> nth_error (history_ r) j = Some ej ->
    concat_line_num_ ei <= concat_line_num_ ej.
Proof.
  intros H. apply completed_pass in H. destruct H as (events & c' & Hrun & ->).
  apply loop_returns_ascending in Hrun. destruct Hrun as (_ & Hb & Ha).
  apply ascending_cons; [|exact Ha].
  intros e He. specialize (Hb e He). simpl. lia.
Qed.

(** C10.  [include_stack] is a function of the log and the target and throws
    nothing: when no event of the log covers the target it returns the empty
    stack.  On a log that begins with the start event of the primary
    document at position 0 and for a target that is 0 or negative it
    returns the one entry [("ERROR: UNINITIALIZED", target)], which is not
    empty; the target is turned down by [include_trace], which throws. *)
Theorem include_stack_never_fails :
  (forall r target,
      (forall e, In e (history_ r) -> ~ covers e target) ->
      include_stack r target = [])
  /\ (forall r target name rest,
         target <= 0 ->
         history_ r = Build_preproc_event 0 0 "start" name :: rest ->
         include_stack r target = [("ERROR: UNINITIALIZED"%string, target)]
         /\ include_trace r target = Throws (not_found target)).
Proof.
  split.
  - intros r target Hun. unfold include_stack.
    now apply include_stack_from_uncovered.
  - intros r target name rest Ht Hh.
    assert (Hs : include_stack r target
                 = [("ERROR: UNINITIALIZED"%string, target)]).
    { unfold include_stack. rewrite Hh, scan_found by (simpl; lia).
      cbn [app]. now replace (-1 + target - -1) with target by lia. }
    split; [exact Hs|]. unfold include_trace. rewrite Hs.
    destruct (Z.ltb_spec target 1) as [_|Hge]; [|lia].
    now rewrite orb_true_r.
Qed.

(** C2.  A file without a last newline.  The document has the
    lines [a], [#include b], [c] and [d], and [inc/b] is the one line [x]
    with no newline behind it.  [read] writes [x] and then the line [c]
    with nothing between them: the program is [a], [xc], [d], three lines,
    where the document has three plain lines and [b] has one.  The log
    counts four lines: line 3 of the program, which is line 4 of the
    document, resolves to line 3 of the document, and the target 4 resolves
    behind the last line of the program. *)
Theorem unterminated_include_shifts_lines :
  exists r,
    new_program_reader unterminated_files 7 unterminated_main "A"
      ["inc/"%string] = Returns r
    /\ program_ r = ("a" ++ endl ++ "xc" ++ endl ++ "d" ++ endl)%string
    /\ lines_of (program_ r)
       = [("a" ++ endl)%string; ("xc" ++ endl)%string; ("d" ++ endl)%string]
    /\ (List.length (filter plain (lines_of unterminated_main))
        + List.length (lines_of "x"))%nat = 4%nat
    /\ resolve r 2 = Some [("A"%string, 2); ("b"%string, 1)]
    /\ resolve r 3 = Some [("A"%string, 3)]
    /\ resolve r 4 = Some [("A"%string, 4)].
Proof.
  eexists. split; [vm_compute; reflexivity|]. vm_compute. repeat split.
Qed.

(** C4.  For every log, [resolve] fails when the target is
    below 1 or no event covers it, and [include_trace] throws then; so
    [resolve] fails at 0 and at -1.  For the
    log of a pass that returned the converse holds as well: [resolve]
    fails only when the target is below 1 or no event covers it. *)
Theorem target_not_found :
  (forall r target,
      target < 1 \/ (forall e, In e (history_ r) -> ~ covers e target) ->
      resolve r target = None
      /\ include_trace r target = Throws (not_found target))
  /\ (forall r, resolve r 0 = None /\ resolve r (-1) = None)
  /\ (forall ifstream fuel in_ name search_path r target,
         new_program_reader ifstream fuel in_ name search_path = Returns r ->
         (resolve r target = None <->
          target < 1 \/ (forall e, In e (history_ r) -> ~ covers e target))).
Proof.
  assert (Hif : forall r target,
             target < 1 \/ (forall e, In e (history_ r) -> ~ covers e target) ->
             resolve r target = None).
  { intros r target [Ht|Hun]; unfold resolve.
    - destruct (Z.ltb_spec target 1); [|lia]. now rewrite orb_true_r.
    - unfold include_stack. now rewrite include_stack_from_uncovered. }
  split.
  { intros r target H. split; [now apply Hif|].
    now rewrite include_trace_resolve, Hif. }
  split.
  { intros r. split; apply Hif; left; lia. }
  intros ifstream fuel in_ name search_path r target Hret.
  split; [|apply Hif]. intros Hnone.
  destruct (Z.ltb_spec target 1) as [Hlt|Hge]; [now left|right].
  apply completed_pass in Hret. destruct Hret as (events & c' & Hrun & Hh).
  assert (Hs : include_stack r target = []).
  { unfold resolve in Hnone. destruct (include_stack r target); [reflexivity|].
    simpl in Hnone. destruct (Z.ltb_spec target 1); [lia | discriminate]. }
  unfold include_stack in Hs. rewrite Hh, scan_start in Hs by lia.
  destruct (loop_returns_scan _ _ _ _ _ _ _ _ _ Hrun target [] name 0 0 [])
    as [Hfound|[Hc' _]].
  - rewrite app_nil_r in Hfound. now elim Hfound.
  - apply loop_returns_ascending in Hrun. destruct Hrun as (_ & Hb & _).
    rewrite Hh. unfold covers. intros e [<-|He]; simpl; [lia|].
    specialize (Hb e He). lia.
Qed.

(** C5, as amended.  [read] takes a line for an include line exactly when
    the line begins, at its first character, with [#include] and a space:
    on such a line the loop pushes the include event with the path of
    [include_path], searches the file and reads it, and writes nothing of
    the line; every other line that is not empty is written to the program
    as it is.  For an include line closed by a newline, the path is the
    text behind the spaces that follow [#include], up to the newline, when
    that text does not end in a space. *)
Theorem include_line_syntax :
  (forall ifstream fuel in_ line in' path search_path line_num r c,
      read_line in_ = (line, in') -> empty line = false ->
      ((exists rest, line = ("#include " ++ rest)%string) ->
       read_loop ifstream (S fuel) in_ path search_path line_num (r, c) =
       match open_include ifstream search_path (include_path line) with
       | None => Throws "could not find include file"
       | Some include_in =>
           match read ifstream fuel include_in (include_path line) search_path
                   (push_event r
                      (Build_preproc_event c (line_num - 1) "include"
                         (include_path line)), c) with
           | Returns (r', c') =>
               read_loop ifstream fuel in' path search_path (line_num + 1)
                 (push_event r'
                    (Build_preproc_event c' line_num "restart" path), c')
           | Throws what => Throws what
           | OutOfFuel => OutOfFuel
           end
       end)
      /\ (~ (exists rest, line = ("#include " ++ rest)%string) ->
          read_loop ifstream (S fuel) in_ path search_path line_num (r, c) =
          read_loop ifstream fuel in' path search_path (line_num + 1)
            (write_line r line, c + 1)))
  /\ (forall n p,
         Ascii.eqb (char_at p 0) space = false ->
         Ascii.eqb (last_char p) space = false ->
         include_path ("#include " ++ spaces n ++ p ++ endl) = p).
Proof.
  split.
  - intros ifstream fuel in_ line in' path search_path line_num r c E El.
    split; intros H.
    + apply read_loop_include; auto.
      unfold plain, starts_with. rewrite negb_false_iff. now apply prefix_app.
    + apply read_loop_plain; auto.
      unfold plain, starts_with. rewrite negb_true_iff.
      destruct (String.prefix "#include " line) eqn:Ep; [|reflexivity].
      exfalso. apply H. now apply prefix_app.
  - intros n p Hfirst _. now apply include_path_of_line.
Qed.

(** C5 as stated fails on an indented line: [#include] behind two blanks
    is the include syntax of the specification, and [read] writes the line
    to the program and pushes no include event, though the file is there;
    the same line without the blanks makes [read] include the file. *)
Lemma indented_include_is_plain :
  directive_of_spec indented_line = true
  /\ new_program_reader example_files 3 indented_line "main" ["inc/"%string]
     = Returns
         (Build_program_reader indented_line
            [Build_preproc_event 0 0 "start" "main";
             Build_preproc_event 1 1 "end" "main"])
  /\ exists r,
      new_program_reader example_files 7 ("#include helper.stanfunc" ++ endl)
        "main" ["inc/"%string] = Returns r
      /\ program_ r = example_helper.
Proof.
  split; [reflexivity|]. split; [vm_compute; reflexivity|].
  eexists. split; vm_compute; reflexivity.
Qed.

(** C6.  When the pass comes to an include line whose path, behind each
    directory of the search path, opens no file, the constructor throws
    [could not find include file], with any fuel from some amount on: the
    outcome has no reader, so neither program nor log. *)
Theorem include_not_found (ifstream : string -> option string)
        (search_path : list string) (in_ name : string) :
  loop_throws ifstream search_path in_ ->
  exists fuel0, forall fuel, (fuel0 <= fuel)%nat ->
    new_program_reader ifstream fuel in_ name search_path
    = Throws "could not find include file".
Proof.
  intros H.
  destruct (loop_throws_read _ _ _ H name 1
              (push_event (Build_program_reader "" [])
                 (Build_preproc_event 0 0 "start" name)) 0) as [fuel0 Hthrow].
  exists (S fuel0). intros [|fuel] Hf; [lia|].
  unfold new_program_reader. rewrite read_S, Hthrow by lia. reflexivity.
Qed.

(** * The properties on examples *)

(** C3 on a document of two plain lines. *)
Lemma no_include_verbatim_witness :
  forallb plain (lines_of (document ["a"; "b"]%string)) = true
  /\ exists r,
      new_program_reader example_files 4 (document ["a"; "b"]%string) "main" []
      = Returns r
      /\ program_ r = document ["a"; "b"]%string
      /\ forall k,
          1 <= k <= Z.of_nat (List.length (lines_of (document ["a"; "b"]%string))) ->
          resolve r k = Some [("main"%string, k)].
Proof.
  split; [reflexivity|].
  apply (no_include_verbatim example_files (document ["a"; "b"]%string) "main"
           [] 4).
  - reflexivity.
  - vm_compute. lia.
Defined.

(** C4 on the example: line 6 is behind the five lines of the program. *)
Lemma target_not_found_witness :
  exists r,
    new_program_reader example_files 8 example_main "main" ["inc/"%string]
    = Returns r
    /\ (resolve r 6 = None <->
        6 < 1 \/ (forall e, In e (history_ r) -> ~ covers e 6)).
Proof.
  eexists. split; [vm_compute; reflexivity|].
  apply (proj2 (proj2 target_not_found) example_files 8%nat example_main
           "main"%string ["inc/"%string]).
  vm_compute. reflexivity.
Defined.

(** C5 on the include line of the example and on a path behind three
    spaces. *)
Lemma include_line_syntax_witness :
  (read_loop example_files 7 ("#include helper.stanfunc" ++ endl) "main"
     ["inc/"%string] 1 (Build_program_reader "" [], 0) =
   match open_include example_files ["inc/"%string]
           (include_path ("#include helper.stanfunc" ++ endl)) with
   | None => Throws "could not find include file"
   | Some include_in =>
       match read example_files 6 include_in
               (include_path ("#include helper.stanfunc" ++ endl))
               ["inc/"%string]
               (push_event (Build_program_reader "" [])
                  (Build_preproc_event 0 (1 - 1) "include"
                     (include_path ("#include helper.stanfunc" ++ endl))), 0)
       with
       | Returns (r', c') =>
           read_loop example_files 6 "" "main" ["inc/"%string] (1 + 1)
             (push_event r' (Build_preproc_event c' 1 "restart" "main"), c')
       | Throws what => Throws what
       | OutOfFuel => OutOfFuel
       end
   end)
  /\ include_path ("#include " ++ spaces 2 ++ "a.stan" ++ endl) = "a.stan"%string.
Proof.
  split.
  - apply (proj1 (proj1 include_line_syntax example_files 6%nat
                    ("#include helper.stanfunc" ++ endl)%string
                    ("#include helper.stanfunc" ++ endl)%string
                    ""%string "main"%string ["inc/"%string] 1
                    (Build_program_reader "" []) 0 eq_refl eq_refl)).
    exists ("helper.stanfunc" ++ endl)%string. reflexivity.
  - apply (proj2 include_line_syntax 2%nat "a.stan"%string); reflexivity.
Defined.

(** C6 on a document that includes a file that is not there. *)
Lemma include_not_found_witness :
  exists fuel0, forall fuel, (fuel0 <= fuel)%nat ->
    new_program_reader example_files fuel
      (document ["model {"; "#include nowhere.stan"]%string) "main"
      ["inc/"%string]
    = Throws "could not find include file".
Proof.
  apply (include_not_found example_files ["inc/"%string]
           (document ["model {"; "#include nowhere.stan"]%string) "main").
  eapply throws_behind_plain; [reflexivity | reflexivity | reflexivity |].
  eapply throws_here; [reflexivity | reflexivity | reflexivity |].
  intros dir [<-|[]]. reflexivity.
Defined.

(** C8 on the example. *)
Lemma history_ascending_witness :
  exists r,
    new_program_reader example_files 8 example_main "main" ["inc/"%string]
    = Returns r
    /\ forall i j ei ej,
        (i <= j)%nat ->
        nth_error (history_ r) i = Some ei ->
        nth_error (history_ r) j = Some ej ->
        concat_line_num_ ei <= concat_line_num_ ej.
Proof.
  eexists. split; [vm_compute; reflexivity|].
  apply (history_ascending example_files 8 example_main "main" ["inc/"%string]).
  vm_compute. reflexivity.
Defined.

(** C10 on the log of an empty primary document, at the target 0. *)
Lemma include_stack_never_fails_witness :
  include_stack
    (Build_program_reader ""
       [Build_preproc_event 0 0 "start" "main";
        Build_preproc_event 0 0 "end" "main"]) 0
  = [("ERROR: UNINITIALIZED"%string, 0)]
  /\ include_trace
       (Build_program_reader ""
          [Build_preproc_event 0 0 "start" "main";
           Build_preproc_event 0 0 "end" "main"]) 0
     = Throws (not_found 0).
Proof.
  apply (proj2 include_stack_never_fails
           (Build_program_reader ""
              [Build_preproc_event 0 0 "start" "main";
               Build_preproc_event 0 0 "end" "main"])
           0 "main"%string [Build_preproc_event 0 0 "end" "main"]).
  - lia.
  - reflexivity.
Defined.

(** * Further properties of the reader *)

(** ** The scan of [include_stack] over the log of a pass *)

Section Provenance_of_runs.

Variable ifstream : string -> option string.
Variable search_path : list string.

Lemma loop_returns_events in_ path line_num c events text c' :
  loop_returns ifstream search_path in_ path line_num c events text c' ->
  exists e events', events = e :: events' /\ c <= concat_line_num_ e.
Proof.
  intros H. pose proof (loop_returns_ascending _ _ _ _ _ _ _ _ _ H)
    as (_ & Hb & _).
  assert (Hne : events <> []) by (clear Hb; induction H; auto; discriminate).
  destruct events as [|e events']; [now elim Hne|].
  exists e, events'. split; [reflexivity|]. apply Hb. simpl; auto.
Qed.

(** A target that is not behind the counter at the start of a run is found
    at the first event of the run. *)
Lemma scan_at_start in_ path line_num c events text c' :
  loop_returns ifstream search_path in_ path line_num c events text c' ->
  forall target result file file_start concat_start rest,
    target <= c ->
    include_stack_from (events ++ rest) target result file file_start
      concat_start
    = result ++ [(file, file_start + target - concat_start)].
Proof.
  intros H target result file file_start concat_start rest Ht.
  destruct (loop_returns_events _ _ _ _ _ _ _ H) as (e & events' & -> & He).
  simpl app. apply scan_found. lia.
Qed.

(** A target behind the counter at the end of a run: the scan drops the last
    entry of the stack and goes on behind the run, or stops on an empty
    stack. *)
Lemma scan_beyond in_ path line_num c events text c' :
  loop_returns ifstream search_path in_ path line_num c events text c' ->
  forall target result file file_start concat_start rest,
    c' < target ->
    (result = [] ->
     include_stack_from (events ++ rest) target result file file_start
       concat_start = [])
    /\ (forall result' x, result = result' ++ [x] ->
        exists file' file_start' concat_start',
          include_stack_from (events ++ rest) target result file file_start
            concat_start
          = include_stack_from rest target result' file' file_start'
              concat_start').
Proof.
  induction 1 as [path line_num c
                 |in_ line in' path line_num c events text c' E El Hp _ IH
                 |in_ line in' include_in path line_num c events1 text1 c1
                    events2 text2 c2 E El Hp Ho H1 IH1 H2 IH2];
    intros target result file file_start concat_start rest Ht.
  - split.
    + intros ->. simpl. destruct (Z.leb_spec target c); [lia | reflexivity].
    + intros result' x ->. simpl app. rewrite scan_end by lia.
      now exists file, file_start, concat_start.
  - now apply IH.
  - pose proof (loop_returns_ascending _ _ _ _ _ _ _ _ _ H1) as (Hc1 & _).
    pose proof (loop_returns_ascending _ _ _ _ _ _ _ _ _ H2) as (Hc2 & _).
    simpl app. rewrite scan_include, scan_start by lia.
    rewrite <- app_assoc. simpl app.
    destruct (IH1 target (result ++ [(file, line_num - 1 + 1)])
                (include_path line) 0 c
                (Build_preproc_event c1 line_num "restart" path
                   :: events2 ++ rest)) as [_ Hpop]; [lia|].
    destruct (Hpop result (file, line_num - 1 + 1) eq_refl)
      as (f' & s' & k' & ->).
    rewrite scan_restart by lia. now apply IH2.
Qed.

Lemma text_of_app (a b : list string) :
  text_of (a ++ b) = (text_of a ++ text_of b)%string.
Proof.
  induction a as [|x a IH]; simpl; [reflexivity|].
  now rewrite IH, append_assoc.
Qed.

Lemma map_fst_under (entry : dump_t) (lines : list (string * dumps_t)) :
  map fst (map (under entry) lines) = map fst lines.
Proof. induction lines as [|x l IH]; simpl; [reflexivity | now rewrite IH]. Qed.

(** The lines of a run, and where the scan finds each of them. *)
Lemma loop_returns_lines in_ path line_num c events text c' :
  loop_returns ifstream search_path in_ path line_num c events text c' ->
  exists lines,
    loop_lines ifstream search_path in_ path line_num lines
    /\ text = text_of (map fst lines)
    /\ c' = c + Z.of_nat (List.length lines)
    /\ forall k line chain target result file_start concat_start rest,
        nth_error lines k = Some (line, chain) ->
        target = c + Z.of_nat k + 1 ->
        file_start - concat_start = line_num - 1 - c ->
        include_stack_from (events ++ rest) target result path file_start
          concat_start
        = result ++ chain.
Proof.
  induction 1 as [path line_num c
                 |in_ line in' path line_num c events text c' E El Hp H IH
                 |in_ line in' include_in path line_num c events1 text1 c1
                    events2 text2 c2 E El Hp Ho H1 IH1 H2 IH2].
  - exists []. split; [constructor|]. split; [reflexivity|].
    split; [simpl; lia|]. intros [|k]; discriminate.
  - destruct IH as (lines & Hl & -> & -> & Hscan).
    exists ((line, [(path, line_num)]) :: lines).
    split; [now apply lines_plain with (in' := in')|].
    split; [reflexivity|]. split; [simpl List.length; lia|].
    intros [|k] ln chain target result file_start concat_start rest Hk Ht Hw.
    + simpl in Hk. inversion Hk; subst ln chain.
      rewrite (scan_at_start _ _ _ _ _ _ _ H) by lia.
      now replace (file_start + target - concat_start) with line_num by lia.
    + simpl in Hk. apply (Hscan k ln chain); auto; lia.
  - destruct IH1 as (inner & Hl1 & -> & -> & Hscan1).
    destruct IH2 as (lines & Hl2 & -> & -> & Hscan2).
    exists (map (under (path, line_num)) inner ++ lines).
    split; [eapply lines_include; eauto|].
    split; [now rewrite map_app, text_of_app, map_fst_under|].
    split; [rewrite List.length_app, length_map; lia|].
    intros k ln chain target result file_start concat_start rest Hk Ht Hw.
    simpl app. rewrite scan_include, scan_start by lia.
    rewrite <- app_assoc. simpl app.
    destruct (Nat.lt_ge_cases k (List.length inner)) as [Hin|Hout].
    + rewrite nth_error_app1, nth_error_map in Hk by now rewrite length_map.
      destruct (nth_error inner k) as [[ln' chain']|] eqn:Ek; [|discriminate].
      inversion Hk; subst ln chain. simpl snd.
      rewrite (Hscan1 k ln' chain') by (auto; lia).
      rewrite <- app_assoc. simpl app.
      now replace (line_num - 1 + 1) with line_num by lia.
    + rewrite nth_error_app2, length_map in Hk by now rewrite length_map.
      destruct (scan_beyond _ _ _ _ _ _ _ H1 target
                  (result ++ [(path, line_num - 1 + 1)]) (include_path line)
                  0 c (Build_preproc_event
                         (c + Z.of_nat (List.length inner)) line_num
                         "restart" path :: events2 ++ rest))
        as [_ Hpop]; [lia|].
      destruct (Hpop result (path, line_num - 1 + 1) eq_refl)
        as (f' & s' & k' & ->).
      rewrite scan_restart by lia.
      apply (Hscan2 (k - List.length inner)%nat ln chain); auto; lia.
Qed.

(** Every line of a run names the file of the run first, and no line number
    of its chain is below the turn the run started at, nor below 1. *)
Lemma loop_lines_chain in_ path line_num lines :
  loop_lines ifstream search_path in_ path line_num lines ->
  forall line chain,
    In (line, chain) lines ->
    (exists l chain', chain = (path, l) :: chain' /\ line_num <= l)
    /\ (1 <= line_num -> Forall (fun entry => 1 <= snd entry) chain)
    /\ empty line = false /\ plain line = true.
Proof.
  induction 1 as [path line_num
                 |in_ line in' path line_num lines E El Hp _ IH
                 |in_ line in' include_in path line_num inner lines
                    E El Hp Ho _ IH1 _ IH2]; intros ln chain Hin.
  - destruct Hin.
  - destruct Hin as [Heq|Hin].
    + inversion Heq; subst ln chain. split; [|split; [|split; assumption]].
      * exists line_num, []. split; [reflexivity | lia].
      * intros Hl. constructor; [simpl; lia | constructor].
    + destruct (IH ln chain Hin) as ((l & chain' & -> & Hl) & Hpos & He).
      split; [|split; [|exact He]].
      * exists l, chain'. split; [reflexivity | lia].
      * intros H1. apply Hpos. lia.
  - apply in_app_or in Hin. destruct Hin as [Hin|Hin].
    + apply in_map_iff in Hin. destruct Hin as ([ln' chain0] & Heq & Hin).
      unfold under in Heq. simpl in Heq. inversion Heq; subst ln chain.
      destruct (IH1 ln' chain0 Hin) as (_ & Hpos & He).
      split; [|split; [|exact He]].
      * exists line_num, chain0. split; [reflexivity | lia].
      * intros H1. constructor; [simpl; lia | apply Hpos; lia].
    + destruct (IH2 ln chain Hin) as ((l & chain' & -> & Hl) & Hpos & He).
      split; [|split; [|exact He]].
      * exists l, chain'. split; [reflexivity | lia].
      * intros H1. apply Hpos. lia.
Qed.

(** The reader of a completed pass and the lines of its program. *)
Lemma completed_pass_lines fuel in_ name r :
  new_program_reader ifstream fuel in_ name search_path = Returns r ->
  exists lines,
    loop_lines ifstream search_path in_ name 1 lines
    /\ program_ r = text_of (map fst lines)
    /\ (forall k line chain,
           nth_error lines k = Some (line, chain) ->
           include_stack r (Z.of_nat k + 1) = chain)
    /\ (forall target, Z.of_nat (List.length lines) < target ->
                       include_stack r target = []).
Proof.
  intros Hret. apply completed_pass in Hret.
  destruct Hret as (events & c' & Hrun & Hh).
  destruct (loop_returns_lines _ _ _ _ _ _ _ Hrun)
    as (lines & Hl & Htext & Hc' & Hscan).
  exists lines. split; [exact Hl|]. split; [exact Htext|]. split.
  - intros k line chain Hk. unfold include_stack. rewrite Hh.
    rewrite scan_start by lia.
    rewrite <- (app_nil_r events).
    rewrite (Hscan k line chain) by (auto; lia). reflexivity.
  - intros target Ht. unfold include_stack. rewrite Hh.
    rewrite scan_start by lia. rewrite <- (app_nil_r events).
    now apply (scan_beyond _ _ _ _ _ _ _ Hrun); [lia|].
Qed.

End Provenance_of_runs.

Lemma map_snd_under (entry : dump_t) (lines : list (string * dumps_t)) :
  map snd (map (under entry) lines) = map (cons entry) (map snd lines).
Proof. induction lines as [|x l IH]; simpl; [reflexivity | now rewrite IH]. Qed.

Lemma NoDup_map_cons (A : Type) (x : A) (l : list (list A)) :
  NoDup l -> NoDup (map (cons x) l).
Proof.
  induction 1 as [|y l Hy _ IH]; simpl; constructor; [|exact IH].
  intros Hin. apply in_map_iff in Hin. destruct Hin as (z & Hz & Hin).
  inversion Hz; subst. contradiction.
Qed.

(** No two lines of a run come from the same place. *)
Lemma loop_lines_nodup ifstream search_path in_ path line_num lines :
  loop_lines ifstream search_path in_ path line_num lines ->
  NoDup (map snd lines).
Proof.
  induction 1 as [path line_num
                 |in_ line in' path line_num lines E El Hp H IH
                 |in_ line in' include_in path line_num inner lines
                    E El Hp Ho H1 IH1 H2 IH2].
  - constructor.
  - simpl. constructor; [|exact IH]. intros Hin.
    apply in_map_iff in Hin. destruct Hin as ([ln chain] & Heq & Hin).
    simpl in Heq. subst chain.
    destruct (loop_lines_chain _ _ _ _ _ _ H ln _ Hin)
      as ((l & chain' & Heq & Hl) & _). inversion Heq. lia.
  - rewrite map_app, map_snd_under. apply NoDup_app.
    + now apply NoDup_map_cons.
    + exact IH2.
    + intros chain Hin1 Hin2.
      apply in_map_iff in Hin1. destruct Hin1 as (chain0 & <- & _).
      apply in_map_iff in Hin2. destruct Hin2 as ([ln chain1] & Heq & Hin2).
      simpl in Heq.
      destruct (loop_lines_chain _ _ _ _ _ _ H2 ln _ Hin2)
        as ((l & chain' & Heq' & Hl) & _).
      rewrite Heq' in Heq. inversion Heq. lia.
Qed.

(** A target that resolves on the log of a completed pass is the number of
    a line of the program. *)
Lemma resolved_line (r : program_reader) (lines : list (string * dumps_t)) :
  (forall k line chain,
      nth_error lines k = Some (line, chain) ->
      include_stack r (Z.of_nat k + 1) = chain) ->
  (forall target, Z.of_nat (List.length lines) < target ->
                  include_stack r target = []) ->
  forall target chain,
    resolve r target = Some chain ->
    exists k line,
      target = Z.of_nat k + 1 /\ nth_error lines k = Some (line, chain).
Proof.
  intros Hfound Hbeyond target chain Hres. unfold resolve in Hres.
  destruct (include_stack r target) as [|x xs] eqn:Es; [discriminate|].
  simpl in Hres. destruct (Z.ltb_spec target 1) as [|Hge]; [discriminate|].
  inversion Hres; subst chain.
  destruct (Z.lt_ge_cases (Z.of_nat (List.length lines)) target) as [Hgt|Hle].
  { rewrite Hbeyond in Es by assumption. discriminate. }
  destruct (nth_error lines (Z.to_nat (target - 1))) as [[line chain]|] eqn:Ek.
  - exists (Z.to_nat (target - 1)), line. split; [lia|].
    pose proof (Hfound _ _ _ Ek) as Ef.
    replace (Z.of_nat (Z.to_nat (target - 1)) + 1) with target in Ef by lia.
    rewrite Ef in Es. now subst chain.
  - apply nth_error_None in Ek. lia.
Qed.

(** What [read_line] returns is one line. *)
Lemma read_line_single (s : string) :
  forall line rest,
    read_line s = (line, rest) -> empty line = false -> lines_of line = [line].
Proof.
  induction s as [|c s IH]; simpl; intros line rest H El.
  - inversion H; subst. discriminate.
  - destruct (Ascii.eqb c newline) eqn:Ec.
    + inversion H; subst. simpl. now rewrite Ec.
    + destruct (read_line s) as [l r] eqn:E. inversion H; subst.
      simpl. rewrite Ec. destruct l as [|d l]; [reflexivity|].
      now rewrite (IH (String d l) rest eq_refl eq_refl).
Qed.

Lemma loop_lines_pieces ifstream search_path in_ path line_num lines :
  loop_lines ifstream search_path in_ path line_num lines ->
  forall line chain, In (line, chain) lines -> lines_of line = [line].
Proof.
  induction 1 as [path line_num
                 |in_ line in' path line_num lines E El Hp _ IH
                 |in_ line in' include_in path line_num inner lines
                    E El Hp Ho _ IH1 _ IH2]; intros ln chain Hin.
  - destruct Hin.
  - destruct Hin as [Heq|Hin]; [|now apply (IH ln chain)].
    inversion Heq; subst. now apply (read_line_single in_ ln in').
  - apply in_app_or in Hin. destruct Hin as [Hin|Hin];
      [|now apply (IH2 ln chain)].
    apply in_map_iff in Hin. destruct Hin as ([ln' chain0] & Heq & Hin).
    unfold under in Heq. simpl in Heq. inversion Heq; subst.
    now apply (IH1 ln chain0).
Qed.

(** Lines written one behind the other are the lines of the text they make
    when every one but the last is closed by a newline. *)
Lemma lines_of_text_of (pieces : list string) :
  (forall piece, In piece pieces -> lines_of piece = [piece]) ->
  terminated pieces = true ->
  lines_of (text_of pieces) = pieces.
Proof.
  induction pieces as [|piece pieces IH]; intros Hone Ht; [reflexivity|].
  destruct pieces as [|next pieces].
  - simpl. rewrite append_empty_right. apply Hone. simpl; auto.
  - change (terminated (piece :: next :: pieces))
      with (closed piece && terminated (next :: pieces)) in Ht.
    apply andb_true_iff in Ht. destruct Ht as [Hc Ht].
    change (text_of (piece :: next :: pieces))
      with (piece ++ text_of (next :: pieces))%string.
    rewrite lines_of_app by exact Hc.
    rewrite IH by (auto; intros q Hq; apply Hone; simpl; auto).
    rewrite Hone by (simpl; auto). reflexivity.
Qed.

(** X1.  On the log of a completed pass, the target [k + 1] resolves to the
    places the line that [read] wrote as its line [k + 1] comes from: the
    file that holds it with its line number, behind every enclosing file
    with the line of its include, outermost first, and [include_trace]
    returns the text for that chain.  The program is the lines written,
    one behind the other, and no target behind the last of them resolves.
    When every line written but the last is closed by a newline, the lines
    written are the lines of the program, so that line [k + 1] of the
    program resolves to where it comes from. *)
Theorem resolve_provenance (ifstream : string -> option string) (fuel : nat)
        (in_ name : string) (search_path : list string) (r : program_reader) :
  new_program_reader ifstream fuel in_ name search_path = Returns r ->
  exists lines,
    loop_lines ifstream search_path in_ name 1 lines
    /\ program_ r = text_of (map fst lines)
    /\ (forall k line chain,
           nth_error lines k = Some (line, chain) ->
           resolve r (Z.of_nat k + 1) = Some chain
           /\ include_trace r (Z.of_nat k + 1) = Returns (format_trace chain))
    /\ (forall target, Z.of_nat (List.length lines) < target ->
                       resolve r target = None)
    /\ (terminated (map fst lines) = true ->
        lines_of (program_ r) = map fst lines).
Proof.
  intros Hret.
  destruct (completed_pass_lines _ _ _ _ _ _ Hret)
    as (lines & Hl & Htext & Hfound & Hbeyond).
  exists lines. split; [exact Hl|]. split; [exact Htext|].
  split; [|split].
  - intros k line chain Hk.
    assert (Hres : resolve r (Z.of_nat k + 1) = Some chain).
    { destruct (loop_lines_chain _ _ _ _ _ _ Hl line chain
                  (nth_error_In _ _ Hk)) as ((l & chain' & -> & _) & _).
      apply resolve_found; [lia|]. now apply Hfound with (line := line). }
    split; [exact Hres|]. now rewrite include_trace_resolve, Hres.
  - intros target Ht. unfold resolve. now rewrite Hbeyond.
  - intros Ht. rewrite Htext. apply lines_of_text_of; [|exact Ht].
    intros piece Hin. apply in_map_iff in Hin.
    destruct Hin as ([line chain] & <- & Hin).
    now apply (loop_lines_pieces _ _ _ _ _ _ Hl line chain).
Qed.

(** X2.  Every chain that [resolve] gives on the log of a completed pass
    begins with an entry of the primary document, under the name given to
    the reader, and has no line number below 1. *)
Theorem resolve_names_primary (ifstream : string -> option string)
        (fuel : nat) (in_ name : string) (search_path : list string)
        (r : program_reader) (target : Z) (chain : dumps_t) :
  new_program_reader ifstream fuel in_ name search_path = Returns r ->
  resolve r target = Some chain ->
  (exists l rest, chain = (name, l) :: rest)
  /\ Forall (fun entry => 1 <= snd entry) chain.
Proof.
  intros Hret Hres.
  destruct (completed_pass_lines _ _ _ _ _ _ Hret)
    as (lines & Hl & _ & Hfound & Hbeyond).
  destruct (resolved_line _ _ Hfound Hbeyond _ _ Hres)
    as (k & line & _ & Hk).
  destruct (loop_lines_chain _ _ _ _ _ _ Hl line chain (nth_error_In _ _ Hk))
    as ((l & chain' & -> & _) & Hpos & _).
  split; [now exists l, chain'|]. apply Hpos. lia.
Qed.

(** X3.  On the log of a completed pass two targets that resolve to the
    same chain are the same line of the program. *)
Theorem resolve_injective (ifstream : string -> option string) (fuel : nat)
        (in_ name : string) (search_path : list string) (r : program_reader)
        (target1 target2 : Z) (chain : dumps_t) :
  new_program_reader ifstream fuel in_ name search_path = Returns r ->
  resolve r target1 = Some chain -> resolve r target2 = Some chain ->
  target1 = target2.
Proof.
  intros Hret Hres1 Hres2.
  destruct (completed_pass_lines _ _ _ _ _ _ Hret)
    as (lines & Hl & _ & Hfound & Hbeyond).
  destruct (resolved_line _ _ Hfound Hbeyond _ _ Hres1)
    as (k1 & line1 & -> & Hk1).
  destruct (resolved_line _ _ Hfound Hbeyond _ _ Hres2)
    as (k2 & line2 & -> & Hk2).
  apply loop_lines_nodup in Hl.
  assert (Hk : k1 = k2).
  { apply (proj1 (NoDup_nth_error (map snd lines)) Hl).
    - rewrite length_map. apply nth_error_Some. now rewrite Hk1.
    - now rewrite !nth_error_map, Hk1, Hk2. }
  now subst k2.
Qed.

(** ** What makes [read] throw, and what it opens *)

Section Search.

Variable ifstream : string -> option string.

(** X5.  The search for an include opens the file of the first directory
    of the search path where the path, written behind the directory, opens:
    it finds a content exactly when some directory opens it and every
    directory in front of that one does not, whatever the directories
    behind it hold. *)
Theorem first_directory_wins (search_path : list string)
        (incl_path content : string) :
  open_include ifstream search_path incl_path = Some content <->
  exists before dir behind,
    search_path = before ++ dir :: behind
    /\ (forall d, In d before ->
                  ifstream (c_str (d ++ incl_path)%string) = None)
    /\ ifstream (c_str (dir ++ incl_path)%string) = Some content.
Proof.
  induction search_path as [|d sp IH]; simpl.
  - split; [discriminate|]. intros (before & dir & behind & H & _).
    now destruct before.
  - destruct (ifstream (c_str (d ++ incl_path)%string)) as [found|] eqn:Ed.
    + split.
      * intros H. exists [], d, sp. split; [reflexivity|].
        split; [intros d' []|]. now rewrite Ed.
      * intros (before & dir & behind & Hsp & Hnone & Hdir).
        destruct before as [|d' before]; simpl in Hsp; inversion Hsp; subst.
        -- now rewrite <- Ed, Hdir.
        -- rewrite Hnone in Ed by (simpl; auto). discriminate.
    + rewrite IH. split.
      * intros (before & dir & behind & -> & Hnone & Hdir).
        exists (d :: before), dir, behind. split; [reflexivity|].
        split; [|exact Hdir]. intros d' [<-|Hin]; auto.
      * intros (before & dir & behind & Hsp & Hnone & Hdir).
        destruct before as [|d' before]; simpl in Hsp; inversion Hsp; subst.
        -- rewrite Hdir in Ed. discriminate.
        -- exists before, dir, behind. split; [reflexivity|].
           split; [|exact Hdir]. intros d0 Hd0. apply Hnone. simpl; auto.
Qed.

Lemma open_include_none_inv (search_path : list string) (incl_path : string) :
  open_include ifstream search_path incl_path = None ->
  forall dir, In dir search_path ->
              ifstream (c_str (dir ++ incl_path)%string) = None.
Proof.
  induction search_path as [|d sp IH]; simpl; intros H dir Hin; [destruct Hin|].
  destruct (ifstream (c_str (d ++ incl_path)%string)) eqn:Ed; [discriminate|].
  destruct Hin as [<-|Hin]; [exact Ed | now apply IH].
Qed.

(** A run of [read_loop] that throws has come to an include line that opens
    nowhere, and throws nothing else. *)
Lemma read_loop_throws (search_path : list string) (fuel : nat) :
  forall in_ path line_num r c what,
    read_loop ifstream fuel in_ path search_path line_num (r, c) = Throws what ->
    what = "could not find include file"%string
    /\ loop_throws ifstream search_path in_.
Proof.
  induction fuel as [|fuel IH]; intros in_ path line_num r c what H;
    [discriminate|].
  destruct (read_line in_) as [line in'] eqn:E.
  destruct (empty line) eqn:El.
  - destruct line; [|discriminate]. apply read_line_empty in E.
    destruct E as [-> ->]. rewrite read_loop_end in H. discriminate.
  - destruct (plain line) eqn:Hp.
    + rewrite (read_loop_plain _ _ _ _ _ _ _ _ _ _ E El Hp) in H.
      apply IH in H. destruct H as [-> H]. split; [reflexivity|].
      now apply throws_behind_plain with (line := line) (in' := in').
    + rewrite (read_loop_include _ _ _ _ _ _ _ _ _ _ E El Hp) in H.
      destruct (open_include ifstream search_path (include_path line))
        as [include_in|] eqn:Ho.
      * destruct fuel as [|fuel']; [discriminate|]. rewrite read_S in H.
        assert (IH' : forall in_ path line_num r c o,
                   o <> OutOfFuel ->
                   read_loop ifstream fuel' in_ path search_path line_num (r, c)
                   = o ->
                   read_loop ifstream (S fuel') in_ path search_path line_num
                     (r, c) = o).
        { intros ? ? ? ? ? o Ho' Heq.
          destruct (fuel_monotone ifstream fuel') as [_ Hm].
          rewrite Hm; [assumption| |lia]. unfold finished. now rewrite Heq. }
        destruct (read_loop ifstream fuel' include_in (include_path line)
                    search_path 1 _) as [[r1 c1]|w|] eqn:E1;
          try discriminate.
        -- apply IH in H. destruct H as [-> H]. split; [reflexivity|].
           apply IH', read_loop_returns in E1; [|discriminate].
           destruct E1 as (events & text & Hrun & _).
           eapply throws_behind_include; eauto.
        -- inversion H; subst w. apply IH', IH in E1; [|discriminate].
           destruct E1 as [-> E1]. split; [reflexivity|].
           eapply throws_inside; eauto.
      * inversion H. split; [reflexivity|].
        eapply throws_here; eauto. now apply open_include_none_inv.
Qed.

(** With no directory to search, a run returns on plain lines only. *)
Lemma loop_returns_no_directory in_ path line_num c events text c' :
  loop_returns ifstream [] in_ path line_num c events text c' ->
  forallb plain (lines_of in_) = true /\ text = in_.
Proof.
  induction 1 as [path line_num c
                 |in_ line in' path line_num c events text c' E El Hp _ IH
                 |in_ line in' include_in path line_num c events1 text1 c1
                    events2 text2 c2 E El Hp Ho _ _ _ _].
  - now split.
  - destruct IH as [Hall ->]. rewrite lines_of_read_line, E, El. simpl.
    rewrite Hp, Hall. split; [reflexivity|].
    symmetry. now apply read_line_app.
  - discriminate.
Qed.

Lemma include_line_throws (lines : list string) :
  forall in_,
    lines_of in_ = lines -> forallb plain lines = false ->
    loop_throws ifstream [] in_.
Proof.
  induction lines as [|line lines IH]; intros in_ Hl Hp; [discriminate|].
  apply lines_of_cons in Hl. destruct Hl as (rest & E & El & Hr & _).
  simpl in Hp. destruct (plain line) eqn:Hline.
  - eapply throws_behind_plain; eauto.
  - eapply throws_here; eauto. intros dir [].
Qed.


End Search.

(** ** The shape of the log *)

Lemma count_action_app (a : string) (h1 h2 : list preproc_event) :
  count_action a (h1 ++ h2) = (count_action a h1 + count_action a h2)%nat.
Proof. unfold count_action. now rewrite filter_app, List.length_app. Qed.

Lemma count_action_nil (a : string) : count_action a [] = 0%nat.
Proof. reflexivity. Qed.

Lemma count_action_cons (a : string) (e : preproc_event)
      (h : list preproc_event) :
  count_action a (e :: h)
  = ((if (action_ e =? a)%string then 1 else 0) + count_action a h)%nat.
Proof.
  unfold count_action. simpl. now destruct (action_ e =? a)%string.
Qed.

Section Shape.

Variable ifstream : string -> option string.
Variable search_path : list string.

(** The last event of a run is the end event of its file, at the counter
    the run ends with and at the number of lines the run has read. *)
Lemma loop_returns_last in_ path line_num c events text c' :
  loop_returns ifstream search_path in_ path line_num c events text c' ->
  exists events',
    events = events'
             ++ [Build_preproc_event c'
                   (line_num - 1 + Z.of_nat (List.length (lines_of in_)))
                   "end" path].
Proof.
  induction 1 as [path line_num c
                 |in_ line in' path line_num c events text c' E El Hp _ IH
                 |in_ line in' include_in path line_num c events1 text1 c1
                    events2 text2 c2 E El Hp Ho _ _ _ IH2].
  - exists []. simpl. now rewrite Z.add_0_r.
  - destruct IH as [events' ->]. exists events'.
    rewrite (lines_of_read_line in_), E, El. simpl List.length.
    now replace (line_num - 1 + Z.of_nat (S (List.length (lines_of in'))))
      with (line_num + 1 - 1 + Z.of_nat (List.length (lines_of in'))) by lia.
  - destruct IH2 as [events' ->]. eexists.
    rewrite (lines_of_read_line in_), E, El. simpl List.length.
    replace (line_num - 1 + Z.of_nat (S (List.length (lines_of in'))))
      with (line_num + 1 - 1 + Z.of_nat (List.length (lines_of in'))) by lia.
    now rewrite !app_comm_cons, app_assoc.
Qed.

(** In the events of a run every include has its start and its restart, and
    there is one end more than starts; up to any event but the last the
    ends are no more than the starts. *)
Lemma loop_returns_balanced in_ path line_num c events text c' :
  loop_returns ifstream search_path in_ path line_num c events text c' ->
  count_action "start" events = count_action "include" events
  /\ count_action "restart" events = count_action "include" events
  /\ count_action "end" events = S (count_action "start" events)
  /\ forall n, (n < List.length events)%nat ->
               (count_action "end" (firstn n events)
                <= count_action "start" (firstn n events))%nat.
Proof.
  induction 1 as [path line_num c
                 |in_ line in' path line_num c events text c' E El Hp _ IH
                 |in_ line in' include_in path line_num c events1 text1 c1
                    events2 text2 c2 E El Hp Ho _ IH1 _ IH2].
  - repeat split; try reflexivity.
    intros [|n] Hn; [apply Nat.le_refl | simpl in Hn; lia].
  - exact IH.
  - destruct IH1 as (Hs1 & Hr1 & He1 & Hp1), IH2 as (Hs2 & Hr2 & He2 & Hp2).
    split; [|split; [|split]].
    + rewrite !count_action_cons, !count_action_app, !count_action_cons.
      simpl. lia.
    + rewrite !count_action_cons, !count_action_app, !count_action_cons.
      simpl. lia.
    + rewrite !count_action_cons, !count_action_app, !count_action_cons.
      simpl. lia.
    + intros n Hn. simpl List.length in Hn.
      rewrite List.length_app in Hn. simpl List.length in Hn.
      destruct n as [|[|n]];
        [apply Nat.le_refl | unfold count_action; simpl; lia |].
      cbn [firstn]. rewrite firstn_app, !count_action_cons, !count_action_app.
      cbn [action_].
      destruct (Nat.lt_ge_cases n (List.length events1)) as [Hin|Hout].
      * replace (n - List.length events1)%nat with 0%nat by lia.
        cbn [firstn]. rewrite !count_action_nil.
        specialize (Hp1 n Hin). simpl. lia.
      * rewrite !firstn_all2 by lia. rewrite He1.
        destruct (n - List.length events1)%nat as [|m] eqn:Em.
        -- cbn [firstn]. rewrite !count_action_nil. simpl. lia.
        -- cbn [firstn]. rewrite !count_action_cons. cbn [action_].
           assert (Hm : (m < List.length events2)%nat) by lia.
           specialize (Hp2 m Hm). simpl. lia.
Qed.

(** Every include event of a run names a path that opens. *)
Lemma loop_returns_includes_open in_ path line_num c events text c' :
  loop_returns ifstream search_path in_ path line_num c events text c' ->
  forall e, In e events -> action_ e = "include"%string ->
            exists content,
              open_include ifstream search_path (path_ e) = Some content.
Proof.
  induction 1 as [path line_num c
                 |in_ line in' path line_num c events text c' E El Hp _ IH
                 |in_ line in' include_in path line_num c events1 text1 c1
                    events2 text2 c2 E El Hp Ho _ IH1 _ IH2]; intros e He Ha.
  - destruct He as [<-|[]]. discriminate.
  - now apply IH.
  - destruct He as [<-|[<-|He]]; [now exists include_in | discriminate |].
    apply in_app_or in He. destruct He as [He|[<-|He]];
      [now apply IH1 | discriminate | now apply IH2].
Qed.

End Shape.

(** ** Properties of a pass *)

(** X4.  The constructor throws only [could not find include file], and
    only when the pass has come to an include line whose path opens in no
    directory of the search path. *)
Theorem throws_only_for_missing_include (ifstream : string -> option string)
        (fuel : nat) (in_ name : string) (search_path : list string)
        (what : string) :
  new_program_reader ifstream fuel in_ name search_path = Throws what ->
  what = "could not find include file"%string
  /\ loop_throws ifstream search_path in_.
Proof.
  unfold new_program_reader. destruct fuel as [|fuel]; [discriminate|].
  rewrite read_S.
  destruct (read_loop ifstream fuel in_ name search_path 1 _)
    as [[r c]|w|] eqn:E; try discriminate.
  intros H; inversion H; subst w. now apply read_loop_throws in E.
Qed.

(** X6.  With an empty search path a pass returns only on a document
    without include lines, and the program is then the document; on a
    document with an include line the constructor throws, with any fuel
    from some amount on. *)
Theorem empty_search_path (ifstream : string -> option string)
        (in_ name : string) :
  (forall fuel r,
      new_program_reader ifstream fuel in_ name [] = Returns r ->
      forallb plain (lines_of in_) = true /\ program_ r = in_)
  /\ (forallb plain (lines_of in_) = false ->
      exists fuel0, forall fuel, (fuel0 <= fuel)%nat ->
        new_program_reader ifstream fuel in_ name []
        = Throws "could not find include file").
Proof.
  split.
  - intros fuel r Hret. apply completed_pass in Hret.
    destruct Hret as (events & c' & Hrun & _).
    now apply loop_returns_no_directory in Hrun.
  - intros Hinc.
    pose proof (include_line_throws ifstream _ in_ eq_refl Hinc) as Hthrows.
    destruct (loop_throws_read _ _ _ Hthrows name 1
                (push_event (Build_program_reader "" [])
                   (Build_preproc_event 0 0 "start" name)) 0)
      as [fuel0 Hthrow].
    exists (S fuel0). intros [|fuel] Hf; [lia|].
    unfold new_program_reader. rewrite read_S, Hthrow by lia. reflexivity.
Qed.


(** X8.  The log of a completed pass begins with the start event of the
    primary document at position 0 and line 0, and ends with its end event,
    at the number of lines written to the program and at the number of
    lines of the primary document. *)
Theorem log_ends_with_primary (ifstream : string -> option string)
        (fuel : nat) (in_ name : string) (search_path : list string)
        (r : program_reader) :
  new_program_reader ifstream fuel in_ name search_path = Returns r ->
  exists middle lines,
    loop_lines ifstream search_path in_ name 1 lines
    /\ history_ r
       = Build_preproc_event 0 0 "start" name
           :: middle
           ++ [Build_preproc_event (Z.of_nat (List.length lines))
                 (Z.of_nat (List.length (lines_of in_))) "end" name].
Proof.
  intros Hret. apply completed_pass in Hret.
  destruct Hret as (events & c' & Hrun & ->).
  destruct (loop_returns_lines _ _ _ _ _ _ _ _ _ Hrun)
    as (lines & Hl & _ & -> & _).
  destruct (loop_returns_last _ _ _ _ _ _ _ _ _ Hrun) as [middle ->].
  exists middle, lines. split; [exact Hl | reflexivity].
Qed.

(** X9.  In the log of a completed pass the events nest: there are as many
    end events as start events, one start event more than include events,
    as many restart events as include events, and up to any event but the
    last there are fewer end events than start events. *)
Theorem log_balanced (ifstream : string -> option string) (fuel : nat)
        (in_ name : string) (search_path : list string) (r : program_reader) :
  new_program_reader ifstream fuel in_ name search_path = Returns r ->
  count_action "end" (history_ r) = count_action "start" (history_ r)
  /\ count_action "start" (history_ r) = S (count_action "include" (history_ r))
  /\ count_action "restart" (history_ r) = count_action "include" (history_ r)
  /\ forall n, (0 < n < List.length (history_ r))%nat ->
               (count_action "end" (firstn n (history_ r))
                < count_action "start" (firstn n (history_ r)))%nat.
Proof.
  intros Hret. apply completed_pass in Hret.
  destruct Hret as (events & c' & Hrun & ->).
  destruct (loop_returns_balanced _ _ _ _ _ _ _ _ _ Hrun)
    as (Hs & Hr & He & Hp).
  split; [|split; [|split]].
  - rewrite !count_action_cons. simpl. lia.
  - rewrite !count_action_cons. simpl. lia.
  - rewrite !count_action_cons. simpl. lia.
  - intros [|n] Hn; [lia|]. simpl List.length in Hn. cbn [firstn].
    rewrite !count_action_cons.
    assert (Hlt : (n < List.length events)%nat) by lia.
    specialize (Hp n Hlt). simpl. lia.
Qed.

(** X10.  Every include event in the log of a completed pass names a path
    that opens in a directory of the search path. *)
Theorem includes_were_opened (ifstream : string -> option string)
        (fuel : nat) (in_ name : string) (search_path : list string)
        (r : program_reader) (e : preproc_event) :
  new_program_reader ifstream fuel in_ name search_path = Returns r ->
  In e (history_ r) -> action_ e = "include"%string ->
  exists content, open_include ifstream search_path (path_ e) = Some content.
Proof.
  intros Hret He Ha. apply completed_pass in Hret.
  destruct Hret as (events & c' & Hrun & Hh). rewrite Hh in He.
  destruct He as [<-|He]; [discriminate|].
  now apply (loop_returns_includes_open _ _ _ _ _ _ _ _ _ Hrun).
Qed.

Lemma text_of_lines_of (s : string) : text_of (lines_of s) = s.
Proof.
  induction s as [|c s IH]; [reflexivity|]. simpl.
  destruct (Ascii.eqb c newline); [simpl; now rewrite IH|].
  destruct (lines_of s) as [|line lines] eqn:El.
  - apply lines_of_nil in El. now subst s.
  - simpl in *. now rewrite IH.
Qed.

(** X15.  One include.  The primary document [A] has the include line [d]
    as its line [length pre + 1], between the plain lines [pre] and
    [post], and the path of [d] opens the file [B], which has no include
    line.  With fuel for the lines of [A] and [B] and three more the pass
    returns.  The program is the text of [pre], then [B] as it is, then
    the text of [post].  The targets up to [length pre] resolve to the
    lines of [A] in front of [d]; the next ones, as many as [B] has lines,
    to [A] at the line of [d] and to [B], under the path of the include
    line, at its line [k]; those behind them to the lines of [A] behind
    [d].  When [B] is empty or closed by a newline, or nothing follows
    [d], the lines of the program are [pre], the lines of [B] and
    [post]. *)
Theorem single_include (ifstream : string -> option string)
        (search_path : list string) (name A B : string)
        (pre post : list string) (d : string) (fuel : nat) :
  lines_of A = pre ++ d :: post ->
  forallb plain pre = true -> plain d = false -> forallb plain post = true ->
  open_include ifstream search_path (include_path d) = Some B ->
  forallb plain (lines_of B) = true ->
  (List.length (lines_of A) + List.length (lines_of B) + 3 <= fuel)%nat ->
  exists r,
    new_program_reader ifstream fuel A name search_path = Returns r
    /\ program_ r = (text_of pre ++ B ++ text_of post)%string
    /\ (forall k, 1 <= k <= Z.of_nat (List.length pre) ->
                  resolve r k = Some [(name, k)])
    /\ (forall k, 1 <= k <= Z.of_nat (List.length (lines_of B)) ->
                  resolve r (Z.of_nat (List.length pre) + k)
                  = Some [(name, Z.of_nat (List.length pre) + 1);
                          (include_path d, k)])
    /\ (forall k, 1 <= k <= Z.of_nat (List.length post) ->
                  resolve r (Z.of_nat (List.length pre)
                             + Z.of_nat (List.length (lines_of B)) + k)
                  = Some [(name, Z.of_nat (List.length pre) + 1 + k)])
    /\ (closed B = true \/ post = [] ->
        lines_of (program_ r) = pre ++ lines_of B ++ post).
Proof.
  intros HA Hpre Hd Hpost Hopen HB Hf.
  destruct (read_loop_prefix ifstream pre A (d :: post) HA Hpre)
    as (text & in' & HAeq & Hin' & Hct & Hrun).
  assert (Htext : lines_of text = pre).
  { rewrite HAeq, lines_of_app, Hin' in HA by (apply Hct; discriminate).
    now apply app_inv_tail in HA. }
  apply lines_of_cons in Hin'. destruct Hin' as (rest & E & El & Hrest & Hin'eq).
  rewrite HA, List.length_app in Hf. simpl List.length in Hf.
  replace fuel
    with (S (List.length pre + S (S (fuel - List.length pre - 3)))) by lia.
  unfold new_program_reader.
  rewrite read_S, Hrun, (read_loop_include _ _ _ _ _ _ _ _ _ _ E El Hd), Hopen,
    read_S.
  rewrite (read_loop_plain_text ifstream (lines_of B)) by (auto; lia).
  rewrite (read_loop_plain_text ifstream post) by (auto; lia).
  eexists. split; [reflexivity|].
  unfold push_event. cbn [program_ history_ app String.append].
  split; [|split; [|split; [|split]]].
  - rewrite append_assoc, <- Htext, <- Hrest, !text_of_lines_of. reflexivity.
  - intros k Hk. apply resolve_found; [lia|].
    unfold include_stack. cbn [history_].
    rewrite scan_start, scan_found by (cbn [concat_line_num_]; lia).
    cbn [app]. now replace (0 + k - 0) with k by lia.
  - intros k Hk. apply resolve_found; [lia|].
    unfold include_stack. cbn [history_].
    rewrite scan_start, scan_include, scan_start, scan_found
      by (cbn [concat_line_num_]; lia).
    cbn [app].
    replace (1 + Z.of_nat (List.length pre) - 1 + 1)
      with (Z.of_nat (List.length pre) + 1) by lia.
    now replace (0 + (Z.of_nat (List.length pre) + k)
                 - (0 + Z.of_nat (List.length pre))) with k by lia.
  - intros k Hk. apply resolve_found; [lia|].
    unfold include_stack. cbn [history_].
    rewrite scan_start, scan_include, scan_start, scan_end, scan_restart,
      scan_found by (cbn [concat_line_num_]; lia).
    cbn [app].
    now replace (1 + Z.of_nat (List.length pre)
                 + (Z.of_nat (List.length pre)
                    + Z.of_nat (List.length (lines_of B)) + k)
                 - (0 + Z.of_nat (List.length pre)
                    + Z.of_nat (List.length (lines_of B))))
      with (Z.of_nat (List.length pre) + 1 + k) by lia.
  - intros Hclosed.
    rewrite append_assoc, lines_of_app, Htext by (apply Hct; discriminate).
    f_equal. destruct Hclosed as [Hc| ->].
    + now rewrite lines_of_app, Hrest by exact Hc.
    + apply lines_of_nil in Hrest. subst rest.
      now rewrite append_empty_right, app_nil_r.
Qed.

(** ** The path of an include line *)

Lemma char_at_spaces (k j : nat) :
  (j < k)%nat -> char_at (spaces k) (Z.of_nat j) = space.
Proof.
  revert j; induction k as [|k IH]; intros j Hj; [lia|].
  destruct j as [|j]; [reflexivity|].
  change (spaces (S k)) with (String space EmptyString ++ spaces k)%string.
  replace (Z.of_nat (S j))
    with (Z.of_nat (String.length (String space EmptyString)) + Z.of_nat j)
    by (simpl String.length; lia).
  rewrite char_at_app by lia. apply IH. lia.
Qed.

Lemma skip_backward_spaces (j : nat) :
  forall (a : string) (c : ascii) (k turns : nat),
    Ascii.eqb c space = false -> (j <= k)%nat -> (j < turns)%nat ->
    skip_backward turns (a ++ String c (spaces k))
      (Z.of_nat (String.length a + j))
    = Z.of_nat (String.length a).
Proof.
  induction j as [|j IH]; intros a c k turns Hc Hj Ht;
    (destruct turns as [|turns]; [lia|]); simpl skip_backward.
  - replace (Z.of_nat (String.length a + 0))
      with (Z.of_nat (String.length a) + 0) by lia.
    rewrite char_at_app by lia.
    change (char_at (String c (spaces k)) 0) with c. rewrite Hc. lia.
  - replace (Z.of_nat (String.length a + S j))
      with (Z.of_nat (String.length a) + Z.of_nat (S j)) by lia.
    rewrite char_at_app by lia.
    change (String c (spaces k)) with (String c EmptyString ++ spaces k)%string.
    replace (Z.of_nat (S j))
      with (Z.of_nat (String.length (String c EmptyString)) + Z.of_nat j)
      by (simpl String.length; lia).
    rewrite char_at_app, char_at_spaces by lia.
    change (Ascii.eqb space space) with true. cbv iota.
    replace (Z.of_nat (String.length a)
             + (Z.of_nat (String.length (String c EmptyString)) + Z.of_nat j)
             - 1)
      with (Z.of_nat (String.length a + j))
      by (simpl String.length; lia).
    change (String c EmptyString ++ spaces k)%string
      with (String c (spaces k)).
    apply IH; auto; lia.
Qed.

Lemma substring_end (s : string) (m : nat) :
  substring (String.length s) m s = EmptyString.
Proof.
  induction s as [|c s IH]; simpl; [now destruct m | exact IH].
Qed.

Lemma substring_none (s : string) (n : nat) : substring n 0 s = EmptyString.
Proof.
  revert n; induction s as [|c s IH]; intros [|n]; simpl; auto.
Qed.

(** X11.  For an include line, [include_path] gives the text from the first
    character behind [#include] that is no space up to, and without, the
    last character of the line that is no space: [p] when the line is
    [#include], spaces, [p], one character [c] that is no space, and spaces
    to the end.  The character [c] is the newline of a line that has one,
    and then spaces in front of the newline stay in the path; it is the
    last character of the path itself on a last line without a newline. *)
Theorem include_path_cuts_last (n k : nat) (p : string) (c : ascii) :
  Ascii.eqb c space = false ->
  Ascii.eqb (char_at p 0) space = false ->
  include_path ("#include " ++ spaces n ++ p ++ String c (spaces k)) = p.
Proof.
  intros Hc Hp. unfold include_path.
  set (line := ("#include " ++ spaces n ++ p ++ String c (spaces k))%string).
  assert (Hl : line
               = (("#include " ++ spaces n ++ p) ++ String c (spaces k))%string)
    by (unfold line; now rewrite !append_assoc).
  assert (Hbody : String.length ("#include " ++ spaces n ++ p)
                  = (9 + n + String.length p)%nat).
  { rewrite !string_length_app, length_spaces. reflexivity. }
  assert (Hlen : String.length line = (9 + n + String.length p + 1 + k)%nat).
  { rewrite Hl, string_length_app, Hbody. simpl String.length.
    rewrite length_spaces. lia. }
  assert (Hstart : skip_forward (String.length line) line
                     (Z.of_nat (String.length "#include")) = Z.of_nat (9 + n)).
  { transitivity (Z.of_nat (String.length "#include" + S n));
      [|f_equal; simpl; lia].
    apply (skip_forward_spaces (S n) "#include" (p ++ String c (spaces k))
             (String.length line)).
    - rewrite Hlen. lia.
    - destruct p as [|d p]; [exact Hc | exact Hp]. }
  assert (Hend : skip_backward (String.length line) line
                   (Z.of_nat (String.length line) - 1)
                 = Z.of_nat (9 + n + String.length p)).
  { rewrite <- Hbody.
    replace (Z.of_nat (String.length line) - 1)
      with (Z.of_nat (String.length ("#include " ++ spaces n ++ p) + k))
      by (rewrite Hlen, Hbody; lia).
    rewrite Hl. apply skip_backward_spaces; auto.
    rewrite <- Hl, Hlen. lia. }
  rewrite Hstart, Hend. unfold substr.
  destruct (Z.ltb_spec (Z.of_nat (9 + n + String.length p) - Z.of_nat (9 + n)) 0);
    [lia|].
  replace (Z.to_nat (Z.of_nat (9 + n + String.length p) - Z.of_nat (9 + n)))
    with (String.length p) by lia.
  rewrite Nat2Z.id.
  assert (Hl' : line
                = (("#include " ++ spaces n) ++ p ++ String c (spaces k))%string)
    by (unfold line; now rewrite !append_assoc).
  rewrite Hl'.
  replace (9 + n)%nat with (String.length ("#include " ++ spaces n)).
  - apply substring_middle.
  - rewrite string_length_app, length_spaces. reflexivity.
Qed.

(** X12.  An include line with nothing but spaces behind [#include] has the
    empty path. *)
Theorem include_path_blank (n : nat) :
  include_path ("#include " ++ spaces n) = EmptyString.
Proof.
  unfold include_path.
  set (line := ("#include " ++ spaces n)%string).
  assert (Hlen : String.length line = (9 + n)%nat).
  { unfold line. rewrite string_length_app, length_spaces. reflexivity. }
  assert (Hstart : skip_forward (String.length line) line
                     (Z.of_nat (String.length "#include"))
                   = Z.of_nat (String.length line)).
  { transitivity (Z.of_nat (String.length "#include" + S n));
      [|f_equal; rewrite Hlen; simpl; lia].
    replace line with ("#include" ++ spaces (S n) ++ "")%string
      by (unfold line; simpl; now rewrite append_empty_right).
    apply skip_forward_spaces; [|reflexivity].
    rewrite !string_length_app, length_spaces. simpl. lia. }
  destruct (skip_backward_exits (String.length line) line 7
              (Z.of_nat (String.length line) - 1)) as [Hb _];
    [reflexivity | lia | lia |].
  rewrite Hstart. unfold substr.
  destruct (Z.ltb_spec
              (skip_backward (String.length line) line
                 (Z.of_nat (String.length line) - 1)
               - Z.of_nat (String.length line)) 0); [|lia].
  rewrite Nat2Z.id. apply substring_end.
Qed.

(** X13.  The path of an include line never begins with a space. *)
Theorem include_path_no_leading_space (line : string) :
  starts_with "#include " line = true ->
  Ascii.eqb (char_at (include_path line) 0) space = false.
Proof.
  intros H. destruct (include_path_loops_exit line H) as ((Hlo & _) & Hc & _).
  unfold include_path.
  set (start := skip_forward (String.length line) line
                  (Z.of_nat (String.length "#include"))) in *.
  set (end_ := skip_backward (String.length line) line
                 (Z.of_nat (String.length line) - 1)).
  unfold substr.
  destruct (if end_ - start <? 0 then String.length line
            else Z.to_nat (end_ - start)) as [|m] eqn:Em.
  - now rewrite substring_none.
  - unfold char_at at 1. simpl (0 <? 0). cbv iota.
    change (Z.to_nat 0) with 0%nat.
    rewrite (substring_correct1 line (Z.to_nat start) (S m) 0) by lia.
    simpl Nat.add. unfold char_at in Hc.
    destruct (Z.ltb_spec start 0); [lia | exact Hc].
Qed.

Lemma c_str_cut (a b : string) : c_str (a ++ String zero b) = c_str a.
Proof.
  induction a as [|x a IH]; simpl; [reflexivity|].
  destruct (Ascii.eqb x zero); [reflexivity | now rewrite IH].
Qed.

(** X14.  The file of an include is opened under the path up to its first
    NUL character: what stands behind a NUL in the path of an include line
    has no part in the search, while the log keeps the whole path. *)
Theorem open_include_cut_at_nul (ifstream : string -> option string)
        (search_path : list string) (p q : string) :
  open_include ifstream search_path (p ++ String zero q)
  = open_include ifstream search_path p.
Proof.
  induction search_path as [|dir sp IH]; simpl; [reflexivity|].
  rewrite <- append_assoc, c_str_cut, IH. reflexivity.
Qed.

(** * The further properties on examples *)

(** X1 on the example of the specification. *)
Lemma resolve_provenance_witness :
  exists r,
    new_program_reader example_files 8 example_main "main" ["inc/"%string]
    = Returns r
    /\ exists lines,
        loop_lines example_files ["inc/"%string] example_main "main" 1 lines
        /\ program_ r = text_of (map fst lines)
        /\ (forall k line chain,
               nth_error lines k = Some (line, chain) ->
               resolve r (Z.of_nat k + 1) = Some chain
               /\ include_trace r (Z.of_nat k + 1)
                  = Returns (format_trace chain))
        /\ (forall target, Z.of_nat (List.length lines) < target ->
                           resolve r target = None)
        /\ (terminated (map fst lines) = true ->
            lines_of (program_ r) = map fst lines).
Proof.
  eexists. split; [vm_compute; reflexivity|].
  apply (resolve_provenance example_files 8 example_main "main"
           ["inc/"%string]).
  vm_compute. reflexivity.
Defined.

(** X2 on the example, at line 3 of the program. *)
Lemma resolve_names_primary_witness :
  exists r,
    new_program_reader example_files 8 example_main "main" ["inc/"%string]
    = Returns r
    /\ resolve r 3 = Some [("main"%string, 2); ("helper.stanfunc"%string, 2)]
    /\ (exists l rest,
           [("main"%string, 2); ("helper.stanfunc"%string, 2)]
           = ("main"%string, l) :: rest)
    /\ Forall (fun entry : dump_t => 1 <= snd entry)
         [("main"%string, 2); ("helper.stanfunc"%string, 2)].
Proof.
  eexists. split; [vm_compute; reflexivity|].
  split; [vm_compute; reflexivity|].
  eapply (resolve_names_primary example_files 8 example_main "main"
           ["inc/"%string] _ 3).
  - vm_compute. reflexivity.
  - vm_compute. reflexivity.
Defined.

(** X3 on the example, at line 3 of the program. *)
Lemma resolve_injective_witness :
  exists r,
    new_program_reader example_files 8 example_main "main" ["inc/"%string]
    = Returns r
    /\ resolve r 3 = Some [("main"%string, 2); ("helper.stanfunc"%string, 2)]
    /\ 3 = 3.
Proof.
  eexists. split; [vm_compute; reflexivity|].
  split; [vm_compute; reflexivity|].
  eapply (resolve_injective example_files 8 example_main "main"
           ["inc/"%string] _ 3 3
           [("main"%string, 2); ("helper.stanfunc"%string, 2)]).
  - vm_compute. reflexivity.
  - vm_compute. reflexivity.
  - vm_compute. reflexivity.
Defined.

(** X4 on a document whose include opens nowhere. *)
Lemma throws_only_for_missing_include_witness :
  new_program_reader example_files 3 missing_include "main" ["inc/"%string]
  = Throws "could not find include file"
  /\ "could not find include file"%string = "could not find include file"%string
  /\ loop_throws example_files ["inc/"%string] missing_include.
Proof.
  split; [vm_compute; reflexivity|].
  apply (throws_only_for_missing_include example_files 3 missing_include
           "main" ["inc/"%string]).
  vm_compute. reflexivity.
Defined.

(** X5 on the example, with a directory in front that has no such file. *)
Lemma first_directory_wins_witness :
  open_include example_files ["lib/"; "inc/"]%string "helper.stanfunc"
  = Some example_helper
  /\ exists before dir behind,
      ["lib/"; "inc/"]%string = before ++ dir :: behind
      /\ (forall d, In d before ->
                    example_files (c_str (d ++ "helper.stanfunc")%string) = None)
      /\ example_files (c_str (dir ++ "helper.stanfunc")%string)
         = Some example_helper.
Proof.
  split; [reflexivity|].
  apply (proj1 (first_directory_wins example_files ["lib/"; "inc/"]%string
                  "helper.stanfunc" example_helper)).
  reflexivity.
Defined.

(** X6 on the example document, which has an include line. *)
Lemma empty_search_path_witness :
  forallb plain (lines_of example_main) = false
  /\ exists fuel0, forall fuel, (fuel0 <= fuel)%nat ->
      new_program_reader example_files fuel example_main "main" []
      = Throws "could not find include file".
Proof.
  split; [reflexivity|].
  apply (proj2 (empty_search_path example_files example_main "main")).
  reflexivity.
Defined.


(** X8 on the example. *)
Lemma log_ends_with_primary_witness :
  exists r,
    new_program_reader example_files 8 example_main "main" ["inc/"%string]
    = Returns r
    /\ exists middle lines,
        loop_lines example_files ["inc/"%string] example_main "main" 1 lines
        /\ history_ r
           = Build_preproc_event 0 0 "start" "main"
               :: middle
               ++ [Build_preproc_event (Z.of_nat (List.length lines))
                     (Z.of_nat (List.length (lines_of example_main)))
                     "end" "main"].
Proof.
  eexists. split; [vm_compute; reflexivity|].
  apply (log_ends_with_primary example_files 8 example_main "main"
           ["inc/"%string]).
  vm_compute. reflexivity.
Defined.

(** X9 on the example. *)
Lemma log_balanced_witness :
  exists r,
    new_program_reader example_files 8 example_main "main" ["inc/"%string]
    = Returns r
    /\ count_action "end" (history_ r) = count_action "start" (history_ r)
    /\ count_action "start" (history_ r)
       = S (count_action "include" (history_ r))
    /\ count_action "restart" (history_ r)
       = count_action "include" (history_ r)
    /\ forall n, (0 < n < List.length (history_ r))%nat ->
                 (count_action "end" (firstn n (history_ r))
                  < count_action "start" (firstn n (history_ r)))%nat.
Proof.
  eexists. split; [vm_compute; reflexivity|].
  apply (log_balanced example_files 8 example_main "main" ["inc/"%string]).
  vm_compute. reflexivity.
Defined.

(** X10 on the example. *)
Lemma includes_were_opened_witness :
  exists r,
    new_program_reader example_files 8 example_main "main" ["inc/"%string]
    = Returns r
    /\ exists content,
        open_include example_files ["inc/"%string]
          (path_ (Build_preproc_event 1 1 "include" "helper.stanfunc"))
        = Some content.
Proof.
  eexists. split; [vm_compute; reflexivity|].
  eapply (includes_were_opened example_files 8 example_main "main"
           ["inc/"%string] _
           (Build_preproc_event 1 1 "include" "helper.stanfunc")).
  - vm_compute. reflexivity.
  - vm_compute. auto.
  - reflexivity.
Defined.

(** X11 on a last line without a newline: the path loses its last
    character. *)
Lemma include_path_cuts_last_witness :
  Ascii.eqb "n"%char space = false
  /\ Ascii.eqb (char_at "a.sta" 0) space = false
  /\ include_path ("#include " ++ spaces 0 ++ "a.sta" ++ String "n"%char (spaces 0))
     = "a.sta"%string.
Proof.
  split; [reflexivity|]. split; [reflexivity|].
  apply (include_path_cuts_last 0 0 "a.sta" "n"%char); reflexivity.
Defined.

(** X13 on a line with spaces in front of the path. *)
Lemma include_path_no_leading_space_witness :
  starts_with "#include " ("#include   x" ++ endl) = true
  /\ Ascii.eqb (char_at (include_path ("#include   x" ++ endl)) 0) space = false.
Proof.
  split; [reflexivity|].
  apply (include_path_no_leading_space ("#include   x" ++ endl)). reflexivity.
Defined.

(** X15 on the example of the specification. *)
Lemma single_include_witness :
  exists r,
    new_program_reader example_files 9 example_main "main" ["inc/"%string]
    = Returns r
    /\ program_ r
       = (text_of [("model {" ++ endl)%string] ++ example_helper
            ++ text_of [("}" ++ endl)%string])%string
    /\ (forall k, 1 <= k <= Z.of_nat (List.length [("model {" ++ endl)%string]) ->
                  resolve r k = Some [("main"%string, k)])
    /\ (forall k, 1 <= k <= Z.of_nat (List.length (lines_of example_helper)) ->
                  resolve r (Z.of_nat (List.length [("model {" ++ endl)%string]) + k)
                  = Some [("main"%string,
                           Z.of_nat (List.length [("model {" ++ endl)%string]) + 1);
                          (include_path ("#include helper.stanfunc" ++ endl), k)])
    /\ (forall k, 1 <= k <= Z.of_nat (List.length [("}" ++ endl)%string]) ->
                  resolve r (Z.of_nat (List.length [("model {" ++ endl)%string])
                             + Z.of_nat (List.length (lines_of example_helper))
                             + k)
                  = Some [("main"%string,
                           Z.of_nat (List.length [("model {" ++ endl)%string])
                           + 1 + k)])
    /\ (closed example_helper = true \/ [("}" ++ endl)%string] = [] ->
        lines_of (program_ r)
        = [("model {" ++ endl)%string] ++ lines_of example_helper
            ++ [("}" ++ endl)%string]).
Proof.
  apply (single_include example_files ["inc/"%string] "main" example_main
           example_helper [("model {" ++ endl)%string] [("}" ++ endl)%string]
           ("#include helper.stanfunc" ++ endl) 9).
  - reflexivity.
  - reflexivity.
  - reflexivity.
  - reflexivity.
  - reflexivity.
  - reflexivity.
  - vm_compute. lia.
Defined.
